(** * sgpt/utils.py: a shallow embedding and its verified properties

    The module under study is the utility layer of ShellGPT: the sanitizer
    of model output, the command runner, the editor prompt, the eager-option
    decorator and the shell-integration installer.

    A Python [str] is the list of its code points.  The two regular
    expressions of the module are run by a small backtracking matcher with
    the greedy and lazy stars of [re].  The operating system is a record
    holding the files and the trace of the calls made; the functions with
    effects live in a state-and-exception monad over it.  What the module
    only reads is gathered in a [host]: the environment variables, the
    platform name, the integration texts, and the behaviour of the child
    processes of [os.system], which is any function from a command line and
    the files to a wait status and the files afterwards.  A file holds the
    text that UTF-8 reads from its bytes; a byte that UTF-8 cannot read
    stands in this text as one of the code points U+DC80 to U+DCFF, the way
    Python's [surrogateescape] handler shows it, so that every file has a
    text and a strict read fails exactly on the texts that hold such a code
    point.  Command lines are taken to be free of the NUL character and of
    lone surrogates, on which [os.system] raises before any process
    starts. *)

From Stdlib Require Import List NArith ZArith Lia Bool String Ascii.
From stdpp Require Import gmap.
Import ListNotations.

Set Default Proof Using "Type".

Abbreviation char := N (only parsing).
Abbreviation str := (list N) (only parsing).

(** [lit "abc"] is the Python literal ['abc']. *)
Fixpoint lit (s : string) : str :=
  match s with
  | EmptyString => []
  | String a s' => N_of_ascii a :: lit s'
  end.

Definition nl : char := 10%N.
Definition dquote : char := 34%N.

(** ** Python's built-in string methods *)
Module Py.

(** [str.isspace] on one character (CPython's [_PyUnicode_IsWhitespace]). *)
Definition isspace (c : char) : bool :=
  ((9 <=? c) && (c <=? 13) || (28 <=? c) && (c <=? 32)
   || (c =? 133) || (c =? 160) || (c =? 5760)
   || (8192 <=? c) && (c <=? 8202)
   || (c =? 8232) || (c =? 8233) || (c =? 8239) || (c =? 8287)
   || (c =? 12288))%N.

Fixpoint lstrip (s : str) : str :=
  match s with
  | [] => []
  | c :: s' => if isspace c then lstrip s' else s
  end.

Definition rstrip (s : str) : str := rev (lstrip (rev s)).

(** [s.strip()] *)
Definition strip (s : str) : str := rstrip (lstrip s).

(** [s.startswith(p)] *)
Fixpoint startswith (p s : str) : bool :=
  match p, s with
  | [], _ => true
  | a :: p', b :: s' => (a =? b)%N && startswith p' s'
  | _ :: _, [] => false
  end.

(** [p in s] *)
Fixpoint contains (p s : str) : bool :=
  startswith p s || match s with [] => false | _ :: s' => contains p s' end.

(** [s.split(sep)] for a one-character separator: never the empty list. *)
Fixpoint split (sep : char) (s : str) : list str :=
  match s with
  | [] => [[]]
  | c :: s' =>
      if (c =? sep)%N then [] :: split sep s'
      else match split sep s' with
           | w :: ws => (c :: w) :: ws
           | [] => [[c]]
           end
  end.

(** [s.split()]: the maximal runs of non-whitespace characters. *)
Fixpoint split_ws (s : str) : list str :=
  match s with
  | [] => []
  | c :: s' =>
      if isspace c then split_ws s'
      else match s' with
           | [] => [[c]]
           | d :: _ =>
               if isspace d then [c] :: split_ws s'
               else match split_ws s' with
                    | w :: ws => (c :: w) :: ws
                    | [] => [[c]]
                    end
           end
  end.

(** [sep.join(l)] *)
Fixpoint join (sep : str) (l : list str) : str :=
  match l with
  | [] => []
  | [x] => x
  | x :: l' => x ++ sep ++ join sep l'
  end.

(** [s.replace(c, by)] for a one-character pattern. *)
Definition replace (c : char) (by_ : str) (s : str) : str :=
  flat_map (fun d => if (d =? c)%N then by_ else [d]) s.

End Py.

(** ** The fragment of [re] the module uses

    Both patterns of the source are sequences of literals, an optional
    literal, and stars over a one-character class, one of them inside the
    only capturing group.  The matcher is the backtracking one of CPython:
    a greedy star tries the longest run first, a lazy star the shortest. *)
Module Re.

Inductive cls := Any | Space.

Definition cls_test (k : cls) (c : char) : bool :=
  match k with
  | Any => true               (* [.] under [re.DOTALL] *)
  | Space => Py.isspace c     (* [\s] *)
  end.

Inductive node :=
  | Lit (s : str)             (* the characters of [s] *)
  | Opt (s : str)             (* [(?:s)?] *)
  | Star (k : cls)            (* [k*] *)
  | LazyStar (k : cls)        (* [k*?] *)
  | Group1 (k : cls).         (* [(k*?)], capturing group 1 *)

Abbreviation regex := (list node) (only parsing).

Fixpoint strip_prefix (p s : str) : option str :=
  match p, s with
  | [], _ => Some s
  | a :: p', b :: s' => if (a =? b)%N then strip_prefix p' s' else None
  | _ :: _, [] => None
  end.

(** A match is the text of group 1 and the input left after the match. *)
Abbreviation matched := (str * str)%type (only parsing).

Fixpoint star_greedy (k : cls) (cont : str -> option matched) (s : str)
  : option matched :=
  match s with
  | c :: s' =>
      if cls_test k c then
        match star_greedy k cont s' with
        | Some m => Some m
        | None => cont s
        end
      else cont s
  | [] => cont []
  end.

Fixpoint star_lazy (k : cls) (cont : str -> option matched) (s : str)
  : option matched :=
  match cont s with
  | Some m => Some m
  | None =>
      match s with
      | c :: s' => if cls_test k c then star_lazy k cont s' else None
      | [] => None
      end
  end.

Fixpoint star_lazy_group (k : cls) (cont : str -> option matched)
    (acc : str) (s : str) : option matched :=
  match cont s with
  | Some (_, rest) => Some (rev acc, rest)
  | None =>
      match s with
      | c :: s' =>
          if cls_test k c then star_lazy_group k cont (c :: acc) s' else None
      | [] => None
      end
  end.

(** [pattern.match(s)], anchored at the start of [s]. *)
Fixpoint match_here (p : regex) (s : str) : option matched :=
  match p with
  | [] => Some ([], s)
  | Lit l :: p' =>
      match strip_prefix l s with
      | Some s' => match_here p' s'
      | None => None
      end
  | Opt l :: p' =>
      match strip_prefix l s with
      | Some s' =>
          match match_here p' s' with
          | Some m => Some m
          | None => match_here p' s
          end
      | None => match_here p' s
      end
  | Star k :: p' => star_greedy k (match_here p') s
  | LazyStar k :: p' => star_lazy k (match_here p') s
  | Group1 k :: p' => star_lazy_group k (match_here p') [] s
  end.

(** [re.search(p, s)]: the leftmost match; [m.group(1)] is its result. *)
Fixpoint search (p : regex) (s : str) : option str :=
  match match_here p s with
  | Some (g, _) => Some g
  | None =>
      match s with
      | [] => None
      | _ :: s' => search p s'
      end
  end.

(** [re.sub(p, '', s)]: every leftmost non-overlapping match is deleted.
    An empty match deletes nothing and the scan moves one character on. *)
Fixpoint sub_fuel (fuel : nat) (p : regex) (s : str) : str :=
  match fuel with
  | O => s
  | S fuel' =>
      let step :=
        match s with
        | [] => []
        | c :: s' => c :: sub_fuel fuel' p s'
        end in
      match match_here p s with
      | Some (_, rest) =>
          if (length rest <? length s)%nat then sub_fuel fuel' p rest else step
      | None => step
      end
  end.

Definition sub (p : regex) (s : str) : str := sub_fuel (S (length s)) p s.

End Re.

(** ** sgpt/utils.py, the pure part *)

Definition think_open : str := lit "<think>".
Definition think_close : str := lit "</think>".
Definition fence : str := lit "```".

(** [r'<think>.*?</think>'] with [re.DOTALL] *)
Definition think_re : list Re.node :=
  [Re.Lit think_open; Re.LazyStar Re.Any; Re.Lit think_close].

(** [r'```(?:bash)?\s*(.*?)\s*```'] with [re.DOTALL] *)
Definition code_block_re : list Re.node :=
  [Re.Lit fence; Re.Opt (lit "bash"); Re.Star Re.Space; Re.Group1 Re.Any;
   Re.Star Re.Space; Re.Lit fence].

Definition sanitize_command (command : str) : str :=
  Py.strip (Re.sub think_re command).

(** Lines 51-56 of [run_command]: the text that is split into commands. *)
Definition command_text (command : str) : str :=
  let command := sanitize_command command in
  match Re.search code_block_re command with
  | Some group1 => group1
  | None => command
  end.

(** ** The operating system seen from the module *)

Inductive exn :=
  | IndexError
  | FileNotFoundError (path : str)
  | UnicodeDecodeError (path : str)
  | BadParameter (msg : str)      (* click.BadParameter *)
  | UsageError (msg : str)        (* click.UsageError *)
  | Exit.                         (* typer.Exit *)

Inductive event :=
  | Echo (msg : str)                          (* typer.echo *)
  | Secho (msg : str) (fg : str) (err : bool) (* typer.secho *)
  | System (cmd : str)                        (* os.system *)
  | TempFile (path : str)                     (* NamedTemporaryFile *)
  | Read (path : str)                         (* open(path, "r").read() *)
  | Remove (path : str)                       (* os.remove *)
  | Append (path : str) (text : str).         (* open(path, "a").write *)

(** The files by path, each with the text UTF-8 reads from it, and the calls
    made so far, oldest first. *)
Record world := World {
  files : gmap (list N) (list N);
  trace : list event
}.

(** What the process finds around it and cannot change. *)
Record host := Host {
  environ : gmap (list N) (list N);            (* os.environ *)
  platform_system : str;                       (* platform.system() *)
  (* the child process of os.system: its wait status, the files it leaves *)
  spawn : str -> gmap (list N) (list N) -> Z * gmap (list N) (list N);
  (* the fresh name NamedTemporaryFile picks, without its suffix *)
  tempname : gmap (list N) (list N) -> str;
  expanduser : str -> str;                     (* os.path.expanduser *)
  zsh_integration : str;                       (* sgpt.integration *)
  bash_integration : str;
  version : str                                (* sgpt.__version__ *)
}.

Inductive result (A : Type) :=
  | Ok (a : A)
  | Raise (e : exn).
Arguments Ok {A} a.
Arguments Raise {A} e.

(** Computations that read and change the world and may raise. *)
Definition M (A : Type) : Type := world -> result A * world.

Definition ret {A} (a : A) : M A := fun w => (Ok a, w).

Definition raise {A} (e : exn) : M A := fun w => (Raise e, w).

Definition bind {A B} (m : M A) (k : A -> M B) : M B :=
  fun w =>
    match m w with
    | (Ok a, w') => k a w'
    | (Raise e, w') => (Raise e, w')
    end.

Notation "x <- m ;; k" := (bind m (fun x => k))
  (at level 100, m at next level, right associativity).
Notation "m ;;; k" := (bind m (fun _ => k))
  (at level 100, right associativity).

Definition log (e : event) : M unit :=
  fun w => (Ok tt, {| files := files w; trace := trace w ++ [e] |}).

Definition lift {A} (r : result A) : M A := fun w => (r, w).

(** [l[0]] *)
Definition index0 {A} (l : list A) : result A :=
  match l with
  | x :: _ => Ok x
  | [] => Raise IndexError
  end.

(** [not s] *)
Definition is_empty {A} (l : list A) : bool :=
  match l with
  | [] => true
  | _ :: _ => false
  end.

(** [os.environ.get(key, default)], also [os.getenv] *)
Definition environ_get (h : host) (key default_ : str) : str :=
  default default_ (environ h !! key).

Definition os_system (h : host) (cmd : str) : M Z :=
  fun w =>
    let '(status, files') := spawn h cmd (files w) in
    (Ok status, {| files := files'; trace := trace w ++ [System cmd] |}).

Definition typer_echo (msg : str) : M unit := log (Echo msg).

Definition typer_secho (msg fg : str) (err : bool) : M unit :=
  log (Secho msg fg err).

(** [NamedTemporaryFile(suffix=".txt", delete=False)]: a new empty file. *)
Definition named_temporary_file (h : host) : M str :=
  fun w =>
    let path := tempname h (files w) ++ lit ".txt" in
    (Ok path, {| files := <[path := []]> (files w);
                 trace := trace w ++ [TempFile path] |}).

(** A code point that stands for a byte UTF-8 cannot read. *)
Definition undecodable (c : char) : bool :=
  ((56448 <=? c) && (c <=? 56575))%N.

(** The newlines of text mode: [\r\n] and [\r] are read as [\n]. *)
Fixpoint universal_newlines (s : str) : str :=
  match s with
  | [] => []
  | c :: s' =>
      if (c =? 13)%N then
        nl :: match s' with
              | d :: s'' =>
                  if (d =? 10)%N then universal_newlines s''
                  else universal_newlines s'
              | [] => []
              end
      else c :: universal_newlines s'
  end.

(** [open(path, "r", encoding="utf-8")] then [read()] *)
Definition read_file (path : str) : M str :=
  fun w =>
    match files w !! path with
    | Some text =>
        if existsb undecodable text then (Raise (UnicodeDecodeError path), w)
        else (Ok (universal_newlines text),
              {| files := files w; trace := trace w ++ [Read path] |})
    | None => (Raise (FileNotFoundError path), w)
    end.

Definition os_remove (path : str) : M unit :=
  fun w =>
    match files w !! path with
    | Some _ => (Ok tt, {| files := delete path (files w);
                           trace := trace w ++ [Remove path] |})
    | None => (Raise (FileNotFoundError path), w)
    end.

(** [open(path, "a")] then [write(text)]: the file is created when absent. *)
Definition append_file (path text : str) : M unit :=
  fun w =>
    (Ok tt, {| files := <[path := default [] (files w !! path) ++ text]> (files w);
               trace := trace w ++ [Append path text] |}).

(** ** shlex.quote *)
Module Shlex.

(** The class [[\w@%+=:,./-]] under [re.ASCII]. *)
Definition safe (c : char) : bool :=
  ((48 <=? c) && (c <=? 57) || (65 <=? c) && (c <=? 90)
   || (97 <=? c) && (c <=? 122) || (c =? 95)
   || Py.contains [c] (lit "@%+=:,./-"))%N.

Definition squote : str := lit "'".

Definition quote (s : str) : str :=
  if is_empty s then lit "''"
  else if forallb safe s then s
  else squote ++ Py.replace 39%N (squote ++ [dquote] ++ squote ++ [dquote] ++ squote) s
       ++ squote.

End Shlex.

(** ** sgpt/utils.py, the effectful part *)

Definition get_edited_prompt (h : host) : M str :=
  file_path <- named_temporary_file h ;;
  let editor := environ_get h (lit "EDITOR") (lit "vim") in
  _ <- os_system h (editor ++ lit " " ++ file_path) ;;
  output <- read_file file_path ;;
  os_remove file_path ;;;
  if is_empty output
  then raise (BadParameter (lit "Couldn't get valid PROMPT from $EDITOR"))
  else ret output.

Definition on_windows (h : host) : bool :=
  bool_decide (platform_system h = lit "Windows").

(** [cmd.split('|')[0].strip().split()[0]] *)
Definition base_cmd (cmd : str) : result str :=
  match index0 (Py.split 124%N cmd) with
  | Ok before_pipe => index0 (Py.split_ws (Py.strip before_pipe))
  | Raise e => Raise e
  end.

Definition check_cmd (base : str) : str :=
  lit "which " ++ base ++ lit " >/dev/null 2>&1".

(** The [for cmd in commands] loop of [run_command]. *)
Fixpoint filter_commands (h : host) (commands filtered_commands : list str)
  : M (list str) :=
  match commands with
  | [] => ret filtered_commands
  | cmd :: commands' =>
      if is_empty (Py.strip cmd) then
        filter_commands h commands' filtered_commands
      else
        base <- lift (base_cmd cmd) ;;
        if negb (on_windows h) then
          status <- os_system h (check_cmd base) ;;
          if (status =? 0)%Z then
            filter_commands h commands' (filtered_commands ++ [cmd])
          else
            typer_secho (lit "Command not found: " ++ base) (lit "yellow") true ;;;
            filter_commands h commands' filtered_commands
        else
          filter_commands h commands' (filtered_commands ++ [cmd])
  end.

(** [os.pathsep] *)
Definition os_pathsep (h : host) : char :=
  if on_windows h then 59%N else 58%N.

Definition full_command (h : host) (filtered_commands : list str) : str :=
  if on_windows h then
    let is_powershell :=
      (3 <=? length (Py.split (os_pathsep h)
                       (environ_get h (lit "PSModulePath") [])))%nat in
    if is_powershell
    then lit "powershell.exe -Command " ++ [dquote]
         ++ Py.join (lit "; ") filtered_commands ++ [dquote]
    else lit "cmd.exe /c " ++ [dquote]
         ++ Py.join (lit " && ") filtered_commands ++ [dquote]
  else
    let shell := environ_get h (lit "SHELL") (lit "/bin/sh") in
    shell ++ lit " -c " ++ Shlex.quote (Py.join (lit "; ") filtered_commands).

Definition run_command (h : host) (command : str) : M unit :=
  let command := command_text command in
  let commands := Py.split nl command in
  filtered_commands <- filter_commands h commands [] ;;
  if is_empty filtered_commands then
    typer_secho (lit "No valid commands to execute") (lit "red") true
  else
    os_system h (full_command h filtered_commands) ;;;
    ret tt.

(** What click hands to an option callback. *)
Inductive value :=
  | VNone
  | VBool (b : bool)
  | VStr (s : str).

(** [bool(value)] *)
Definition truthy (v : value) : bool :=
  match v with
  | VNone => false
  | VBool b => b
  | VStr s => negb (is_empty s)
  end.

Definition option_callback (func : value -> value -> M unit)
  : value -> value -> M unit :=
  fun cls value =>
    if negb (truthy value) then ret tt
    else
      func cls value ;;;
      raise Exit.

(** The function under the decorator. *)
Definition install_shell_integration_body (h : host) (_args : list value)
  : M unit :=
  let shell := environ_get h (lit "SHELL") [] in
  (if Py.contains (lit "zsh") shell then
     typer_echo (lit "Installing ZSH integration...") ;;;
     append_file (expanduser h (lit "~/.zshrc")) (zsh_integration h)
   else if Py.contains (lit "bash") shell then
     typer_echo (lit "Installing Bash integration...") ;;;
     append_file (expanduser h (lit "~/.bashrc")) (bash_integration h)
   else
     raise (UsageError (lit "ShellGPT integrations only available for ZSH and Bash."))) ;;;
  typer_echo (lit "Done! Restart your shell to apply changes.").

Definition install_shell_integration (h : host) : value -> value -> M unit :=
  option_callback (fun cls value => install_shell_integration_body h [cls; value]).

Definition get_sgpt_version (h : host) : value -> value -> M unit :=
  option_callback (fun _ _ => typer_echo (lit "ShellGPT " ++ version h)).

(** ** Vocabulary of the statements *)

(** [first_at needle pre]: in [pre ++ needle] the needle occurs first at the
    end of [pre], so a scan from the left meets it exactly there. *)
Fixpoint first_at (needle pre : str) : bool :=
  match pre with
  | [] => true
  | _ :: pre' =>
      negb (Py.startswith needle (pre ++ needle)) && first_at needle pre'
  end.

(** The text of a fenced block after its optional language tag. *)
Definition drop_tag (inner : str) : str :=
  match Re.strip_prefix (lit "bash") inner with
  | Some inner' => inner'
  | None => inner
  end.

(** A host for the examples: a POSIX machine on which [ls] and [pwd] are on
    the PATH and whose editor saves the text [list files]. *)
Definition demo_spawn (cmd : str) (fs : gmap (list N) (list N))
  : Z * gmap (list N) (list N) :=
  if Py.startswith (lit "which ls ") cmd || Py.startswith (lit "which pwd ") cmd
  then (0%Z, fs)
  else if Py.startswith (lit "which ") cmd then (256%Z, fs)
  else if Py.startswith (lit "vim ") cmd
       then (0%Z, <[skipn 4 cmd := lit "list files"]> fs)
       else (0%Z, fs).

Definition demo_host (shell : option str) (system : str) : host :=
  {| environ := match shell with
                | Some sh => {[ lit "SHELL" := sh ]}
                | None => ∅
                end;
     platform_system := system;
     spawn := demo_spawn;
     tempname := fun _ => lit "/tmp/tmpab12";
     expanduser := fun p => lit "/home/user" ++ skipn 1 p;
     zsh_integration := lit "# zsh widget";
     bash_integration := lit "# bash widget";
     version := lit "1.0.0" |}.

Definition empty_world : world := {| files := ∅; trace := [] |}.

(** The text of a line in front of its first [sep]. *)
Fixpoint before_first (sep : char) (s : str) : str :=
  match s with
  | [] => []
  | c :: s' => if (c =? sep)%N then [] else c :: before_first sep s'
  end.

Definition blank (s : str) : bool := forallb Py.isspace s.

(** A line that is not blank although all it has in front of its first
    pipe character is blank. *)
Definition blank_before_pipe (cmd : str) : bool :=
  negb (blank cmd) && blank (before_first 124%N cmd).

(** What the loop over the lines may do to the world: PATH lookups and the
    warnings about their failures. *)
Definition loop_event (e : event) : Prop :=
  exists base,
    e = System (check_cmd base)
    \/ e = Secho (lit "Command not found: " ++ base) (lit "yellow") true.

(** The PATH lookup of the loop, as the files stand. *)
Definition resolves (h : host) (fs : gmap (list N) (list N)) (cmd : str) : bool :=
  match base_cmd cmd with
  | Ok base => (fst (spawn h (check_cmd base) fs) =? 0)%Z
  | Raise _ => false
  end.

(** The world after [n] runs of the installer, each its own process. *)
Fixpoint install_times (h : host) (cls value : value) (n : nat) (w : world)
  : world :=
  match n with
  | O => w
  | S n' => install_times h cls value n'
              (snd (install_shell_integration h cls value w))
  end.

(** The command line of the specification: as [full_command], but for the
    separator it names for [cmd.exe]. *)
Definition claimed_full_command (h : host) (filtered_commands : list str) : str :=
  if on_windows h then
    if (3 <=? length (Py.split 59%N (environ_get h (lit "PSModulePath") [])))%nat
    then lit "powershell.exe -Command " ++ [dquote]
         ++ Py.join (lit "; ") filtered_commands ++ [dquote]
    else lit "cmd.exe /c " ++ [dquote]
         ++ Py.join (lit "&&") filtered_commands ++ [dquote]
  else
    environ_get h (lit "SHELL") (lit "/bin/sh") ++ lit " -c "
    ++ Shlex.quote (Py.join (lit "; ") filtered_commands).

(** The error of the installer under an unsupported shell. *)
Definition usage_error : exn :=
  UsageError (lit "ShellGPT integrations only available for ZSH and Bash.").

(** The text of a file, empty when the file is not there. *)
Definition rc_text (fs : gmap (list N) (list N)) (path : str) : str :=
  default [] (fs !! path).

(** Whatever a match leaves is a suffix of the input. *)
Definition leaves_suffix (cont : list N -> option (list N * list N)) : Prop :=
  forall s g rest, cont s = Some (g, rest) -> rest `suffix_of` s.

(** Whatever a match leaves comes right after the literal [l]. *)
Definition leaves_after (l : str) (cont : str -> option (str * str)) : Prop :=
  forall s g rest, cont s = Some (g, rest) -> exists m, s = m ++ l ++ rest.

(** A character that is no whitespace. *)
Definition no_space (c : char) : bool := negb (Py.isspace c).

(** How a POSIX shell reads one word, as far as [shlex.quote] needs it
    (Shell Command Language, 2.2.2 and 2.2.3): outside quotes the safe
    characters stand for themselves, between single quotes every character
    does, between double quotes every character but the dollar, the
    backquote and the backslash.  Anything else is not read as one plain
    word. *)
Inductive quoting := Bare | Single | Double.

Fixpoint sh_word (q : quoting) (s : str) : option str :=
  match s with
  | [] => match q with Bare => Some [] | _ => None end
  | c :: s' =>
      match q with
      | Bare =>
          if (c =? 39)%N then sh_word Single s'
          else if (c =? 34)%N then sh_word Double s'
          else if Shlex.safe c then option_map (cons c) (sh_word Bare s')
          else None
      | Single =>
          if (c =? 39)%N then sh_word Bare s'
          else option_map (cons c) (sh_word Single s')
      | Double =>
          if (c =? 34)%N then sh_word Bare s'
          else if (c =? 36)%N || (c =? 96)%N || (c =? 92)%N then None
          else option_map (cons c) (sh_word Double s')
      end
  end.

(** The command lines of the [os.system] calls among some events. *)
Fixpoint system_calls (evs : list event) : list str :=
  match evs with
  | [] => []
  | System cmd :: evs' => cmd :: system_calls evs'
  | _ :: evs' => system_calls evs'
  end.

(** The base commands of the lines that are not blank. *)
Fixpoint base_cmds (commands : list str) : list str :=
  match commands with
  | [] => []
  | cmd :: commands' =>
      if blank cmd then base_cmds commands'
      else match base_cmd cmd with
           | Ok base => base :: base_cmds commands'
           | Raise _ => base_cmds commands'
           end
  end.

(** The messages of the [typer.secho] calls among some events. *)
Fixpoint warnings (evs : list event) : list str :=
  match evs with
  | [] => []
  | Secho msg _ _ :: evs' => msg :: warnings evs'
  | _ :: evs' => warnings evs'
  end.

(** A host whose editor saves its file in Latin-1: the text [café], the
    last byte of which UTF-8 cannot read. *)
Definition latin1_spawn (cmd : str) (fs : gmap (list N) (list N))
  : Z * gmap (list N) (list N) :=
  (0%Z, <[skipn 4 cmd := lit "caf" ++ [56553%N]]> fs).

Definition latin1_host : host :=
  {| environ := ∅;
     platform_system := lit "Linux";
     spawn := latin1_spawn;
     tempname := fun _ => lit "/tmp/tmpab12";
     expanduser := fun p => lit "/home/user" ++ skipn 1 p;
     zsh_integration := lit "# zsh widget";
     bash_integration := lit "# bash widget";
     version := lit "1.0.0" |}.

(** * Properties *)

(** ** Strings *)
Section Strings.
Implicit Types s t p : list N.

Lemma startswith_app_long p s t :
  length p <= length s -> Py.startswith p (s ++ t) = Py.startswith p s.
Proof.
  revert s. induction p as [|a p IH]; intros [|b s] Hlen; simpl in *; try done; try lia.
  rewrite IH; [done | lia].
Qed.

Lemma strip_prefix_app p s : Re.strip_prefix p (p ++ s) = Some s.
Proof. induction p as [|a p IH]; simpl; [done|]. by rewrite N.eqb_refl. Qed.

Lemma strip_prefix_startswith p s :
  Py.startswith p s = false -> Re.strip_prefix p s = None.
Proof.
  revert s. induction p as [|a p IH]; intros [|b s]; simpl; try done.
  destruct (a =? b)%N; simpl; auto.
Qed.

Lemma strip_prefix_Some p s r : Re.strip_prefix p s = Some r -> s = p ++ r.
Proof.
  revert s. induction p as [|a p IH]; intros [|b s]; simpl; try congruence.
  destruct (a =? b)%N eqn:E; [|done]. apply N.eqb_eq in E. subst b.
  intros H. by rewrite (IH _ H).
Qed.

(** Before the place [first_at] points to, the needle does not start. *)
Lemma first_at_cons needle c pre t :
  first_at needle (c :: pre) = true ->
  Re.strip_prefix needle (c :: pre ++ needle ++ t) = None
  /\ first_at needle pre = true.
Proof.
  simpl. intros [H1 H2]%andb_true_iff. split; [|done].
  apply strip_prefix_startswith. apply negb_true_iff in H1.
  change (c :: pre ++ needle ++ t) with ((c :: pre) ++ needle ++ t).
  rewrite app_assoc, startswith_app_long; [done|].
  rewrite length_app. simpl. lia.
Qed.

Lemma startswith_true p s : Py.startswith p s = true -> exists r, s = p ++ r.
Proof.
  revert s. induction p as [|a p IH]; intros [|b s]; simpl; try done; [by eexists..|].
  intros [E H]%andb_true_iff. apply N.eqb_eq in E. subst b.
  destruct (IH _ H) as [r ->]. by exists r.
Qed.

(** Where a needle occurs, it occurs a first time, no further right. *)
Lemma first_occurrence needle a : forall rest,
  exists pre rest',
    a ++ needle ++ rest = pre ++ needle ++ rest'
    /\ first_at needle pre = true
    /\ length pre <= length a.
Proof.
  induction a as [|c a IH]; intros rest.
  - exists [], rest. simpl. split; [done|]. split; [done|lia].
  - destruct (IH rest) as (pre & rest1 & E & Hpre & Hlen).
    destruct (Py.startswith needle ((c :: pre) ++ needle)) eqn:Es.
    + assert (Es' : Py.startswith needle ((c :: pre) ++ needle ++ rest1) = true).
      { rewrite app_assoc, startswith_app_long; [done|].
        rewrite length_app. simpl. lia. }
      destruct (startswith_true _ _ Es') as [r Er].
      exists [], r. cbn [app]. rewrite E. split; [exact Er|].
      split; [done|]. simpl. lia.
    + exists (c :: pre), rest1. cbn [app]. rewrite E. split; [done|].
      split; [|simpl; lia].
      cbn [first_at app]. cbn [app] in Es. by rewrite Es.
Qed.

(** A text that holds an opening and, after it, a closing mark splits at
    its first opening mark and at the first closing mark after that one. *)
Lemma leftmost_span opening closing a b c :
  exists pre body post,
    a ++ opening ++ b ++ closing ++ c = pre ++ opening ++ body ++ closing ++ post
    /\ first_at opening pre = true
    /\ first_at closing body = true.
Proof.
  destruct (first_occurrence opening a (b ++ closing ++ c))
    as (pre & rest1 & E & Hpre & Hlen).
  assert (Hrest : exists x, rest1 = x ++ closing ++ c).
  { apply app_eq_app in E as [l [[-> E]|[-> E]]].
    - symmetry in E. rewrite !app_assoc in E. rewrite <- (app_assoc _ closing c) in E.
      apply app_eq_app in E as [l2 [[E1 E2]|[E1 E2]]].
      + exists l2. by rewrite E2.
      + assert (l2 = []) as ->.
        { apply (f_equal (@length N)) in E1. rewrite !length_app in E1.
          destruct l2; [done|]. simpl in E1. lia. }
        exists []. simpl in E2. by rewrite <- E2.
    - assert (l = []) as ->.
      { rewrite length_app in Hlen. destruct l; [done|]. simpl in Hlen. lia. }
      simpl in E. apply app_inv_head in E. exists b. by rewrite E. }
  destruct Hrest as [x ->].
  destruct (first_occurrence closing x c) as (body & post & E' & Hbody & _).
  exists pre, body, post. by rewrite E, E'.
Qed.

Lemma startswith_self p : Py.startswith p p = true.
Proof. induction p as [|a p IH]; simpl; [done|]. by rewrite N.eqb_refl. Qed.

End Strings.

(** ** The matcher *)
Section Matcher.
Implicit Types s t : list N.
Implicit Types p : list Re.node.

Lemma star_greedy_suffix k cont :
  leaves_suffix cont -> leaves_suffix (Re.star_greedy k cont).
Proof.
  intros Hc s. induction s as [|c s IH]; intros g rest; simpl.
  - apply Hc.
  - destruct (Re.cls_test k c); [|apply Hc].
    destruct (Re.star_greedy k cont s) as [[g' r']|] eqn:E.
    + intros [= -> ->]. apply suffix_cons_r. eauto.
    + apply Hc.
Qed.

Lemma star_lazy_suffix k cont :
  leaves_suffix cont -> leaves_suffix (Re.star_lazy k cont).
Proof.
  intros Hc s. induction s as [|c s IH]; intros g rest; simpl.
  - destruct (cont []) as [[g' r']|] eqn:E; [|done].
    intros [= -> ->]. eauto.
  - destruct (cont (c :: s)) as [[g' r']|] eqn:E.
    + intros [= -> ->]. eauto.
    + destruct (Re.cls_test k c); [|done].
      intros H. apply suffix_cons_r. eauto.
Qed.

Lemma star_lazy_group_suffix k cont acc :
  leaves_suffix cont -> leaves_suffix (Re.star_lazy_group k cont acc).
Proof.
  intros Hc s. revert acc. induction s as [|c s IH]; intros acc g rest; simpl.
  - destruct (cont []) as [[g' r']|] eqn:E; [|done].
    intros [= <- <-]. eauto.
  - destruct (cont (c :: s)) as [[g' r']|] eqn:E.
    + intros [= <- <-]. eauto.
    + destruct (Re.cls_test k c); [|done].
      intros H. apply suffix_cons_r. eauto.
Qed.

Lemma match_here_suffix p : leaves_suffix (Re.match_here p).
Proof.
  induction p as [|[l|l|k|k|k] p IH]; intros s g rest; simpl.
  - by intros [= <- <-].
  - destruct (Re.strip_prefix l s) as [s'|] eqn:E; [|done].
    intros H. apply strip_prefix_Some in E. subst s.
    apply suffix_app_r. eauto.
  - destruct (Re.strip_prefix l s) as [s'|] eqn:E; [|by apply IH].
    destruct (Re.match_here p s') as [m|] eqn:E'; [|by apply IH].
    intros [= ->]. apply strip_prefix_Some in E. subst s.
    apply suffix_app_r. eauto.
  - by apply star_greedy_suffix.
  - by apply star_lazy_suffix.
  - by apply star_lazy_group_suffix.
Qed.

(** Fuel beyond the length of the input changes nothing. *)
Lemma sub_fuel_enough p fuel1 : forall fuel2 s,
  length s < fuel1 -> length s < fuel2 ->
  Re.sub_fuel fuel1 p s = Re.sub_fuel fuel2 p s.
Proof.
  induction fuel1 as [|fuel1 IH]; intros [|fuel2] s H1 H2; try lia.
  simpl.
  assert (Hstep : match s with [] => [] | c :: s' => c :: Re.sub_fuel fuel1 p s' end
                = match s with [] => [] | c :: s' => c :: Re.sub_fuel fuel2 p s' end).
  { destruct s as [|c s']; [done|]. simpl in *. f_equal. apply IH; lia. }
  destruct (Re.match_here p s) as [[g rest]|]; [|done].
  destruct (length rest <? length s) eqn:E; [|done].
  apply Nat.ltb_lt in E. apply IH; lia.
Qed.

(** The equation [re.sub] obeys, free of fuel. *)
Lemma sub_unfold p s :
  Re.sub p s =
  match Re.match_here p s with
  | Some (_, rest) =>
      if length rest <? length s then Re.sub p rest
      else match s with [] => [] | c :: s' => c :: Re.sub p s' end
  | None => match s with [] => [] | c :: s' => c :: Re.sub p s' end
  end.
Proof.
  unfold Re.sub at 1. simpl.
  assert (Hstep : match s with [] => [] | c :: s' => c :: Re.sub_fuel (length s) p s' end
                = match s with [] => [] | c :: s' => c :: Re.sub p s' end).
  { destruct s as [|c s']; [done|]. reflexivity. }
  destruct (Re.match_here p s) as [[g rest]|]; [|done].
  destruct (length rest <? length s) eqn:E; [|done].
  apply Nat.ltb_lt in E. apply sub_fuel_enough; lia.
Qed.

(** [re.sub] only deletes: every character of the output is one of the input. *)
Lemma sub_In p c : forall s, In c (Re.sub p s) -> In c s.
Proof.
  intros s. induction s as [s IH] using (well_founded_induction
    (well_founded_ltof _ (@length N))).
  rewrite sub_unfold.
  assert (Hstep : In c match s with [] => [] | d :: s' => d :: Re.sub p s' end -> In c s).
  { destruct s as [|d s']; [done|]. simpl. intros [->|H]; [by left|].
    right. apply IH; [|done]. unfold ltof. simpl. lia. }
  destruct (Re.match_here p s) as [[g rest]|] eqn:Em; [|done].
  destruct (length rest <? length s) eqn:E; [|done].
  apply Nat.ltb_lt in E. intros H. apply IH in H; [|done].
  apply match_here_suffix in Em. destruct Em as [m ->].
  apply in_or_app. by right.
Qed.

End Matcher.

(** ** sanitize_command *)
Section Sanitize.
Implicit Types s t pre body post : list N.

Lemma star_lazy_unfold k cont s :
  Re.star_lazy k cont s =
  match cont s with
  | Some m => Some m
  | None =>
      match s with
      | c :: s' => if Re.cls_test k c then Re.star_lazy k cont s' else None
      | [] => None
      end
  end.
Proof. by destruct s. Qed.

(** The lazy [.*?] stops at the first place where the closing literal starts. *)
Lemma star_lazy_first needle body post :
  first_at needle body = true ->
  Re.star_lazy Re.Any (Re.match_here [Re.Lit needle]) (body ++ needle ++ post)
  = Some ([], post).
Proof.
  induction body as [|c body IH]; intros H.
  - rewrite star_lazy_unfold. cbn [app Re.match_here].
    by rewrite strip_prefix_app.
  - apply (first_at_cons _ _ _ post) in H as [H1 H2].
    rewrite star_lazy_unfold. cbn [app Re.match_here Re.cls_test].
    rewrite H1. auto.
Qed.

Lemma think_match body post :
  first_at think_close body = true ->
  Re.match_here think_re (think_open ++ body ++ think_close ++ post)
  = Some ([], post).
Proof.
  intros H. unfold think_re. cbn [Re.match_here].
  rewrite strip_prefix_app. by apply star_lazy_first.
Qed.

(** Text in front of the first opening tag is copied as it is. *)
Lemma sub_think_skip pre t :
  first_at think_open pre = true ->
  Re.sub think_re (pre ++ think_open ++ t)
  = pre ++ Re.sub think_re (think_open ++ t).
Proof.
  induction pre as [|c pre IH]; intros H; [done|].
  apply (first_at_cons _ _ _ t) in H as [H1 H2].
  rewrite sub_unfold. cbn [app].
  unfold think_re at 1. cbn [Re.match_here]. rewrite H1.
  f_equal. auto.
Qed.

Lemma sub_think_span pre body post :
  first_at think_open pre = true ->
  first_at think_close body = true ->
  Re.sub think_re (pre ++ think_open ++ body ++ think_close ++ post)
  = pre ++ Re.sub think_re post.
Proof.
  intros Hpre Hbody. rewrite sub_think_skip by done. f_equal.
  rewrite sub_unfold, think_match by done.
  replace (length post <? _) with true; [done|].
  symmetry. apply Nat.ltb_lt. rewrite !length_app. unfold think_open. simpl. lia.
Qed.

Lemma lstrip_In c s : In c (Py.lstrip s) -> In c s.
Proof.
  induction s as [|d s IH]; simpl; [done|].
  destruct (Py.isspace d); [|done]. auto.
Qed.

Lemma strip_In c s : In c (Py.strip s) -> In c s.
Proof.
  unfold Py.strip, Py.rstrip. intros H.
  apply in_rev, lstrip_In, in_rev in H. by apply lstrip_In.
Qed.

End Sanitize.

(** C1, as amended.  When the input is [pre<think>body</think>post], the
    opening tag being the first one of the input and the closing tag the
    first one after it, [sanitize_command] returns the trimmed text made of
    [pre] and of what the same deletion leaves of [post]: the span goes with
    its tags, wherever it sits and whatever its content, newlines included.
    So a character that occurs nowhere outside the span does not occur in
    the output. *)
Theorem sanitize_command_deletes_span (pre body post : list N) :
  first_at think_open pre = true ->
  first_at think_close body = true ->
  sanitize_command (pre ++ think_open ++ body ++ think_close ++ post)
  = Py.strip (pre ++ Re.sub think_re post)
  /\ forall c, ~ In c pre -> ~ In c post ->
       ~ In c (sanitize_command (pre ++ think_open ++ body ++ think_close ++ post)).
Proof.
  intros Hpre Hbody. unfold sanitize_command.
  rewrite sub_think_span by done. split; [done|].
  intros c Hc1 Hc2 H. apply strip_In, in_app_or in H as [H|H]; [done|].
  by apply sub_In in H.
Qed.

Lemma sanitize_command_deletes_span_witness :
  sanitize_command
    (lit "run: " ++ think_open ++ (lit "list" ++ nl :: lit "files")
       ++ think_close ++ lit "ls -la ")
  = lit "run: ls -la".
Proof.
  destruct (sanitize_command_deletes_span
              (lit "run: ") (lit "list" ++ nl :: lit "files") (lit "ls -la ")
              eq_refl eq_refl) as [-> _].
  reflexivity.
Defined.

(** Every input that holds a span has one the theorem speaks of. *)
Lemma sanitize_command_leftmost_span (a b c : list N) :
  exists pre body post,
    a ++ think_open ++ b ++ think_close ++ c
    = pre ++ think_open ++ body ++ think_close ++ post
    /\ first_at think_open pre = true
    /\ first_at think_close body = true
    /\ sanitize_command (a ++ think_open ++ b ++ think_close ++ c)
       = Py.strip (pre ++ Re.sub think_re post).
Proof.
  destruct (leftmost_span think_open think_close a b c)
    as (pre & body & post & E & Hpre & Hbody).
  exists pre, body, post. rewrite E. repeat split; try done.
  unfold sanitize_command. by rewrite sub_think_span.
Qed.

(** C1 as the specification words it does not hold: the content of a span
    comes out whenever the same text also stands outside the span. *)
Lemma sanitize_command_keeps_repeated_content :
  ~ (forall pre body post : list N,
       first_at think_open pre = true ->
       first_at think_close body = true ->
       Py.contains body
         (sanitize_command (pre ++ think_open ++ body ++ think_close ++ post))
       = false).
Proof.
  intros H. specialize (H [] (lit "ls -la") (lit "ls -la") eq_refl eq_refl).
  vm_compute in H. discriminate H.
Qed.

(** ** The fenced block *)
Section CodeBlock.
Implicit Types s t u x r pre post acc : list N.

Lemma fence_eq : fence = [96; 96; 96]%N.
Proof. reflexivity. Qed.

Lemma forallb_isspace_lstrip s : forallb Py.isspace s = true -> Py.lstrip s = [].
Proof.
  induction s as [|c s IH]; simpl; [done|].
  intros [-> H]%andb_true_iff. auto.
Qed.

Lemma lstrip_app s t :
  Py.lstrip (s ++ t)
  = if forallb Py.isspace s then Py.lstrip t else Py.lstrip s ++ t.
Proof.
  induction s as [|c s IH]; simpl; [done|].
  destruct (Py.isspace c); simpl; [apply IH | done].
Qed.

Lemma forallb_rev {A} (f : A -> bool) (l : list A) :
  forallb f (rev l) = forallb f l.
Proof.
  induction l as [|a l IH]; simpl; [done|].
  rewrite forallb_app, IH. simpl. rewrite andb_true_r. apply andb_comm.
Qed.

(** Trailing whitespace, read from the left. *)
Lemma rstrip_cons c s :
  Py.rstrip (c :: s)
  = if forallb Py.isspace (c :: s) then [] else c :: Py.rstrip s.
Proof.
  unfold Py.rstrip. simpl rev. rewrite lstrip_app, forallb_rev. simpl forallb.
  destruct (forallb Py.isspace s) eqn:Es.
  - rewrite andb_true_r. simpl.
    rewrite forallb_isspace_lstrip by (by rewrite forallb_rev).
    by destruct (Py.isspace c).
  - rewrite andb_false_r. by rewrite rev_app_distr.
Qed.

Lemma first_at_drop needle s t :
  first_at needle (s ++ t) = true -> first_at needle t = true.
Proof.
  induction s as [|c s IH]; [done|].
  simpl. intros [_ H]%andb_true_iff. auto.
Qed.

(** [\s*```] at the end of the block: it matches exactly from the places
    where only whitespace is left before the closing fence. *)
Lemma trailing_space_fence u post :
  first_at fence u = true ->
  Re.match_here [Re.Star Re.Space; Re.Lit fence] (u ++ fence ++ post)
  = if forallb Py.isspace u then Some ([], post) else None.
Proof.
  cbn [Re.match_here]. induction u as [|c u IH]; intros H.
  - rewrite fence_eq. cbn [app Re.star_greedy Re.cls_test].
    change (Py.isspace 96) with false. cbv iota.
    rewrite <- fence_eq. change (96 :: 96 :: 96 :: post)%N with (fence ++ post).
    by rewrite strip_prefix_app.
  - apply (first_at_cons _ _ _ post) in H as [H1 H2].
    cbn [app Re.star_greedy Re.cls_test forallb]. rewrite H1, (IH H2).
    destruct (Py.isspace c); [|done].
    by destruct (forallb Py.isspace u).
Qed.

(** [(.*?)\s*```]: group 1 is the text up to its trailing whitespace. *)
Lemma group_then_fence x post acc :
  first_at fence x = true ->
  Re.star_lazy_group Re.Any (Re.match_here [Re.Star Re.Space; Re.Lit fence])
    acc (x ++ fence ++ post)
  = Some (rev acc ++ Py.rstrip x, post).
Proof.
  revert acc. induction x as [|c x IH]; intros acc H.
  - simpl. by rewrite app_nil_r.
  - assert (E := trailing_space_fence (c :: x) post H).
    apply (first_at_cons _ _ _ post) in H as [H1 H2].
    rewrite rstrip_cons. cbn [app Re.star_lazy_group Re.cls_test].
    cbn [app] in E. rewrite E.
    destruct (forallb Py.isspace (c :: x)); [by rewrite app_nil_r|].
    rewrite (IH _ H2). simpl. by rewrite <- app_assoc.
Qed.

(** [\s*(.*?)\s*```]: group 1 is the trimmed text in front of the fence. *)
Lemma space_group_fence x post :
  first_at fence x = true ->
  Re.match_here
    [Re.Star Re.Space; Re.Group1 Re.Any; Re.Star Re.Space; Re.Lit fence]
    (x ++ fence ++ post)
  = Some (Py.strip x, post).
Proof.
  cbn [Re.match_here].
  change (fun s => Re.star_greedy Re.Space
            (fun s0 => match Re.strip_prefix fence s0 with
                       | Some s' => Some ([], s') | None => None end) s)
    with (Re.match_here [Re.Star Re.Space; Re.Lit fence]).
  induction x as [|c x IH]; intros H.
  - rewrite fence_eq. cbn [app Re.star_greedy Re.cls_test].
    change (Py.isspace 96) with false. cbv iota.
    rewrite <- fence_eq. change (96 :: 96 :: 96 :: post)%N with ([] ++ fence ++ post).
    by rewrite group_then_fence.
  - assert (E := group_then_fence (c :: x) post [] H).
    apply (first_at_cons _ _ _ post) in H as [H1 H2].
    cbn [app Re.star_greedy Re.cls_test]. unfold Py.strip. cbn [Py.lstrip].
    destruct (Py.isspace c).
    + by rewrite (IH H2).
    + exact E.
Qed.

End CodeBlock.

Section CodeBlockSearch.
Implicit Types s t r pre post : list N.

Lemma strip_prefix_app_r p r r' t :
  Re.strip_prefix p r = Some r' -> Re.strip_prefix p (r ++ t) = Some (r' ++ t).
Proof.
  intros H. apply strip_prefix_Some in H. subst r.
  by rewrite <- app_assoc, strip_prefix_app.
Qed.

(** A literal that does not start in [r] does not start in [r] followed by a
    character foreign to it. *)
Lemma strip_prefix_before p r h t :
  ~ In h p -> Re.strip_prefix p r = None -> Re.strip_prefix p (r ++ h :: t) = None.
Proof.
  revert r. induction p as [|a p IH]; intros [|b r] Hh; simpl; try done.
  - destruct (a =? h)%N eqn:E; [|done].
    apply N.eqb_eq in E. subst. exfalso. apply Hh. by left.
  - destruct (a =? b)%N; [|done]. apply IH. intros ?. apply Hh. by right.
Qed.

Lemma match_here_Lit l p s :
  Re.match_here (Re.Lit l :: p) s
  = match Re.strip_prefix l s with
    | Some s' => Re.match_here p s'
    | None => None
    end.
Proof. reflexivity. Qed.

Lemma match_here_Opt l p s :
  Re.match_here (Re.Opt l :: p) s
  = match Re.strip_prefix l s with
    | Some s' =>
        match Re.match_here p s' with
        | Some m => Some m
        | None => Re.match_here p s
        end
    | None => Re.match_here p s
    end.
Proof. reflexivity. Qed.

Lemma code_block_match r post :
  first_at fence r = true ->
  Re.match_here code_block_re (fence ++ r ++ fence ++ post)
  = Some (Py.strip (drop_tag r), post).
Proof.
  intros H. unfold code_block_re, drop_tag.
  rewrite match_here_Lit, strip_prefix_app, match_here_Opt.
  destruct (Re.strip_prefix (lit "bash") r) as [r'|] eqn:E.
  - rewrite (strip_prefix_app_r _ _ _ _ E).
    apply strip_prefix_Some in E. subst r. apply first_at_drop in H.
    by rewrite space_group_fence.
  - rewrite fence_eq at 1. cbn [app].
    rewrite strip_prefix_before; [| |done].
    + change (96 :: 96 :: 96 :: post)%N with (fence ++ post).
      by rewrite space_group_fence.
    + vm_compute. intros [?|[?|[?|[?|[]]]]]; discriminate.
Qed.

(** [re.search] finds the block at the first fence of the text. *)
Lemma search_code_block pre r post :
  first_at fence pre = true ->
  first_at fence r = true ->
  Re.search code_block_re (pre ++ fence ++ r ++ fence ++ post)
  = Some (Py.strip (drop_tag r)).
Proof.
  intros Hpre Hr. induction pre as [|c pre IH].
  - cbn [app].
    destruct (fence ++ r ++ fence ++ post) eqn:E; cbn [Re.search];
      rewrite <- E; by rewrite code_block_match.
  - apply (first_at_cons _ _ _ (r ++ fence ++ post)) in Hpre as [H1 H2].
    cbn [app Re.search]. unfold code_block_re at 1.
    rewrite match_here_Lit, H1. auto.
Qed.

End CodeBlockSearch.

Lemma strip_prefix_skipn p s :
  Re.strip_prefix p s
  = if Py.startswith p s then Some (skipn (length p) s) else None.
Proof.
  revert s. induction p as [|a p IH]; intros [|b s]; simpl; try done.
  destruct (a =? b)%N; simpl; [apply IH|done].
Qed.

(** C2, as amended.  When the sanitized text holds a fenced block,
    [pre```r```post] with the opening fence the first one of the text and
    the closing fence the first one after it, the text [run_command] goes
    on with is made from the inner content [r] alone: the four characters
    [bash] are taken off its front when it starts with them, whatever
    follows them, and the rest is trimmed.  No other tag is taken off, and
    the prose [pre] and [post] outside the fence has no part in it. *)
Theorem run_command_uses_fenced_block (command pre r post : list N) :
  sanitize_command command = pre ++ fence ++ r ++ fence ++ post ->
  first_at fence pre = true ->
  first_at fence r = true ->
  command_text command
  = Py.strip (if Py.startswith (lit "bash") r then skipn 4 r else r).
Proof.
  intros E Hpre Hr. unfold command_text.
  rewrite E, search_code_block by done. unfold drop_tag.
  rewrite strip_prefix_skipn. by destruct (Py.startswith (lit "bash") r).
Qed.

Lemma run_command_uses_fenced_block_witness :
  command_text
    (lit "<think>plan</think>Try this: ```bash" ++ nl :: lit "ls -la" ++ nl
       :: lit "``` and then relax")
  = lit "ls -la".
Proof.
  apply (run_command_uses_fenced_block _
           (lit "Try this: ") (lit "bash" ++ nl :: lit "ls -la" ++ [nl])
           (lit " and then relax"));
    reflexivity.
Defined.

(** C2 as the specification words it does not hold: the text used is not
    always the trimmed inner content of the fence, since [bash] is taken
    off the front of a content that merely starts with it. *)
Lemma run_command_fenced_block_loses_bash :
  ~ (forall command pre r post : list N,
       sanitize_command command = pre ++ fence ++ r ++ fence ++ post ->
       first_at fence pre = true ->
       first_at fence r = true ->
       command_text command = Py.strip r).
Proof.
  intros H.
  specialize (H (lit "```bashful```") [] (lit "bashful") []
                eq_refl eq_refl eq_refl).
  vm_compute in H. discriminate H.
Qed.

(** Nor is it the content without its language tag: only [bash] is known. *)
Example command_text_keeps_other_tag :
  command_text (lit "```sh" ++ nl :: lit "ls -la" ++ nl :: lit "```")
  = lit "sh" ++ nl :: lit "ls -la".
Proof. vm_compute. reflexivity. Qed.

(** Every sanitized text that holds a block has one the theorem speaks of:
    the first. *)
Lemma command_text_first_block (command a b c : list N) :
  sanitize_command command = a ++ fence ++ b ++ fence ++ c ->
  exists pre r post,
    sanitize_command command = pre ++ fence ++ r ++ fence ++ post
    /\ first_at fence pre = true
    /\ first_at fence r = true
    /\ command_text command = Py.strip (drop_tag r).
Proof.
  intros E.
  destruct (leftmost_span fence fence a b c) as (pre & r & post & E' & Hpre & Hr).
  exists pre, r, post. rewrite E, E'. repeat split; try done.
  unfold command_text. by rewrite E, E', search_code_block.
Qed.

(** ** The base command of a line *)
Section BaseCommand.
Implicit Types s t cmd : list N.

Lemma lstrip_blank s : blank s = true -> Py.lstrip s = [].
Proof. apply forallb_isspace_lstrip. Qed.

Lemma lstrip_not_blank s :
  blank s = false -> exists c t, Py.lstrip s = c :: t /\ Py.isspace c = false.
Proof.
  unfold blank. induction s as [|c s IH]; simpl; [done|].
  destruct (Py.isspace c) eqn:E; simpl; eauto.
Qed.

(** A trimmed text is empty, or starts with a character that is no space. *)
Lemma strip_cases s :
  (blank s = true /\ Py.strip s = [])
  \/ (blank s = false /\ exists c t, Py.strip s = c :: t /\ Py.isspace c = false).
Proof.
  unfold Py.strip. destruct (blank s) eqn:E.
  - left. by rewrite lstrip_blank.
  - right. split; [done|].
    destruct (lstrip_not_blank s E) as (c & t & -> & Hc).
    rewrite rstrip_cons. simpl. rewrite Hc. simpl. eauto.
Qed.

Lemma is_empty_strip s : is_empty (Py.strip s) = blank s.
Proof.
  destruct (strip_cases s) as [[-> ->]|[-> (c & t & -> & _)]]; done.
Qed.

Lemma split_before_first sep s :
  exists ws, Py.split sep s = before_first sep s :: ws.
Proof.
  induction s as [|c s [ws IH]]; simpl; [eauto|].
  destruct (c =? sep)%N; [eauto|]. rewrite IH. eauto.
Qed.

Lemma split_ws_nil s : Py.split_ws s = [] -> blank s = true.
Proof.
  unfold blank. induction s as [|c s IH]; simpl; [done|].
  destruct (Py.isspace c); simpl; [done|].
  destruct s as [|d s]; [done|].
  destruct (Py.isspace d); [done|].
  by destruct (Py.split_ws (d :: s)).
Qed.

(** [base_cmd] raises exactly on the lines with nothing but whitespace in
    front of their first pipe, and raises [IndexError] there. *)
Lemma base_cmd_cases cmd :
  (blank (before_first 124%N cmd) = true /\ base_cmd cmd = Raise IndexError)
  \/ (blank (before_first 124%N cmd) = false /\ exists base, base_cmd cmd = Ok base).
Proof.
  unfold base_cmd. destruct (split_before_first 124%N cmd) as [ws ->].
  cbn [index0].
  destruct (strip_cases (before_first 124%N cmd))
    as [[-> ->]|[-> (c & t & E & Hc)]]; [by left|right].
  split; [done|].
  destruct (Py.split_ws (Py.strip (before_first 124%N cmd))) as [|b l] eqn:El.
  - apply split_ws_nil in El. rewrite E in El. unfold blank in El. simpl in El.
    by rewrite Hc in El.
  - simpl. eauto.
Qed.

End BaseCommand.

(** ** The loop over the lines *)
Section FilterLoop.
Variable h : host.
Implicit Types cmd : list N.
Implicit Types commands filtered : list (list N).
Implicit Types w : world.

Ltac loop_step :=
  cbn [filter_commands]; rewrite ?is_empty_strip;
  unfold bind, lift, os_system, typer_secho, log; cbn [fst snd files trace].

(** The loop does nothing to the world but look commands up and warn. *)
Lemma filter_commands_events commands : forall filtered w,
  exists evs,
    trace (snd (filter_commands h commands filtered w)) = trace w ++ evs
    /\ Forall loop_event evs.
Proof.
  induction commands as [|cmd commands IH]; intros filtered w.
  - exists []. by rewrite app_nil_r.
  - loop_step. destruct (blank cmd); [apply IH|].
    destruct (base_cmd cmd) as [base|e]; [|exists []; by rewrite app_nil_r].
    destruct (negb (on_windows h)); [|apply IH].
    destruct (spawn h (check_cmd base) (files w)) as [status fs'].
    destruct (status =? 0)%Z.
    + edestruct IH as (evs & -> & Hevs). cbn [trace].
      exists (System (check_cmd base) :: evs). rewrite <- app_assoc.
      split; [done|]. constructor; [|done]. exists base. by left.
    + edestruct IH as (evs & -> & Hevs). cbn [trace].
      exists (System (check_cmd base)
              :: Secho (lit "Command not found: " ++ base) (lit "yellow") true
              :: evs).
      rewrite <- !app_assoc. split; [done|].
      repeat constructor; [exists base; by left | exists base; by right | done].
Qed.

(** One line with nothing in front of its pipe and the loop raises. *)
Lemma filter_commands_raises commands : forall filtered w,
  existsb blank_before_pipe commands = true ->
  fst (filter_commands h commands filtered w) = Raise IndexError.
Proof.
  induction commands as [|cmd commands IH]; intros filtered w; [done|].
  cbn [existsb]. unfold blank_before_pipe at 1. loop_step.
  destruct (blank cmd); cbn [negb andb orb]; [apply IH|].
  destruct (base_cmd_cases cmd) as [[-> ->]|[-> [base ->]]]; [done|].
  cbn [orb]. intros H.
  destruct (negb (on_windows h)); [|by apply IH].
  destruct (spawn h (check_cmd base) (files w)) as [status fs'].
  destruct (status =? 0)%Z; by apply IH.
Qed.

(** Without such a line the loop ends with a list that extends the one it
    started from. *)
Lemma filter_commands_returns commands : forall filtered w,
  existsb blank_before_pipe commands = false ->
  exists kept, fst (filter_commands h commands filtered w) = Ok (filtered ++ kept).
Proof.
  induction commands as [|cmd commands IH]; intros filtered w.
  - exists []. by rewrite app_nil_r.
  - cbn [existsb]. unfold blank_before_pipe at 1. loop_step.
    destruct (blank cmd); cbn [negb andb orb]; [apply IH|].
    destruct (base_cmd_cases cmd) as [[-> ->]|[-> [base ->]]]; [done|].
    cbn [orb]. intros H.
    destruct (negb (on_windows h)).
    + destruct (spawn h (check_cmd base) (files w)) as [status fs'].
      destruct (status =? 0)%Z; [|by apply IH].
      edestruct IH as [kept ->]; [done|].
      exists (cmd :: kept). by rewrite <- app_assoc.
    + edestruct IH as [kept ->]; [done|].
      exists (cmd :: kept). by rewrite <- app_assoc.
Qed.

(** On a POSIX host whose PATH lookups leave the files alone, the loop keeps
    the non-blank lines whose base command resolves, in their order. *)
Lemma filter_commands_posix commands :
  on_windows h = false ->
  (forall base fs, snd (spawn h (check_cmd base) fs) = fs) ->
  forall filtered w,
  existsb blank_before_pipe commands = false ->
  fst (filter_commands h commands filtered w)
  = Ok (filtered
        ++ List.filter (fun cmd => negb (blank cmd) && resolves h (files w) cmd)
             commands)
  /\ files (snd (filter_commands h commands filtered w)) = files w.
Proof.
  intros Hposix Hpure.
  induction commands as [|cmd commands IH]; intros filtered w.
  - by rewrite app_nil_r.
  - cbn [existsb List.filter]. unfold blank_before_pipe at 1, resolves at 1. loop_step.
    destruct (blank cmd); cbn [negb andb orb]; [apply IH|].
    destruct (base_cmd_cases cmd) as [[-> ->]|[-> [base ->]]]; [done|].
    cbn [orb]. intros H. rewrite Hposix. cbn [negb].
    specialize (Hpure base (files w)).
    destruct (spawn h (check_cmd base) (files w)) as [status fs'].
    cbn [fst snd] in *. subst fs'.
    destruct (status =? 0)%Z.
    + match goal with
      | |- context [filter_commands h commands ?f ?W] =>
          destruct (IH f W H) as [-> ->]
      end.
      by rewrite <- app_assoc.
    + match goal with
      | |- context [filter_commands h commands ?f ?W] =>
          by destruct (IH f W H) as [-> ->]
      end.
Qed.

(** On a POSIX host where no PATH lookup succeeds the loop keeps nothing. *)
Lemma filter_commands_none_resolve commands :
  on_windows h = false ->
  (forall base fs, fst (spawn h (check_cmd base) fs) <> 0%Z) ->
  forall filtered w,
  existsb blank_before_pipe commands = false ->
  fst (filter_commands h commands filtered w) = Ok filtered.
Proof.
  intros Hposix Hnone.
  induction commands as [|cmd commands IH]; intros filtered w; [done|].
  cbn [existsb]. unfold blank_before_pipe at 1. loop_step.
  destruct (blank cmd); cbn [negb andb orb]; [apply IH|].
  destruct (base_cmd_cases cmd) as [[-> ->]|[-> [base ->]]]; [done|].
  cbn [orb]. intros H. rewrite Hposix. cbn [negb].
  specialize (Hnone base (files w)).
  destruct (spawn h (check_cmd base) (files w)) as [status fs'].
  cbn [fst] in Hnone. apply Z.eqb_neq in Hnone. rewrite Hnone. by apply IH.
Qed.

End FilterLoop.

(** ** run_command *)
Section RunCommand.
Variable h : host.
Implicit Types command : list N.
Implicit Types w : world.

Lemma run_command_unfold command w :
  run_command h command w
  = match filter_commands h (Py.split nl (command_text command)) [] w with
    | (Ok filtered_commands, w1) =>
        if is_empty filtered_commands
        then (Ok tt, {| files := files w1;
                        trace := trace w1
                                 ++ [Secho (lit "No valid commands to execute")
                                       (lit "red") true] |})
        else (Ok tt, snd (os_system h (full_command h filtered_commands) w1))
    | (Raise e, w1) => (Raise e, w1)
    end.
Proof.
  unfold run_command, bind.
  destruct (filter_commands h _ [] w) as [[l|e] w1]; [|done].
  destruct (is_empty l); [done|].
  unfold os_system. by destruct (spawn h _ (files w1)).
Qed.

(** On a POSIX host whose PATH lookups leave the files alone, and for a text
    on which the loop does not raise, the shell receives the non-blank lines
    whose base command resolves, in their order. *)
Lemma run_command_posix command w :
  on_windows h = false ->
  (forall base fs, snd (spawn h (check_cmd base) fs) = fs) ->
  existsb blank_before_pipe (Py.split nl (command_text command)) = false ->
  let kept :=
    List.filter (fun cmd => negb (blank cmd) && resolves h (files w) cmd)
      (Py.split nl (command_text command)) in
  kept <> [] ->
  exists w1 evs,
    run_command h command w
    = (Ok tt,
       snd (os_system h
              (environ_get h (lit "SHELL") (lit "/bin/sh") ++ lit " -c "
               ++ Shlex.quote (Py.join (lit "; ") kept)) w1))
    /\ files w1 = files w
    /\ trace w1 = trace w ++ evs
    /\ Forall loop_event evs.
Proof.
  intros Hposix Hpure Hok kept Hkept.
  destruct (filter_commands_posix h _ Hposix Hpure [] w Hok) as [E1 E2].
  destruct (filter_commands_events h (Py.split nl (command_text command)) [] w)
    as (evs & E3 & Hevs).
  rewrite run_command_unfold.
  destruct (filter_commands h _ [] w) as [r w1]. cbn [fst snd app] in *.
  subst r. fold kept. exists w1, evs.
  destruct kept as [|k kept'] eqn:Ek; [done|]. cbn [is_empty].
  unfold full_command. by rewrite Hposix.
Qed.

End RunCommand.

(** C3, where the code departs from it.  [ls] is on the PATH, and yet the
    second line, with nothing in front of its pipe, makes [run_command]
    raise after the lookup of [ls]: no line reaches the shell. *)
Theorem run_command_aborts_on_blank_base :
  run_command (demo_host None (lit "Linux"))
    (lit "ls -la" ++ nl :: lit "| grep x") empty_world
  = (Raise IndexError,
     {| files := ∅; trace := [System (lit "which ls >/dev/null 2>&1")] |}).
Proof. vm_compute. reflexivity. Qed.

(** When the loop ends with no command kept, [run_command] prints
    [No valid commands to execute] to standard error and returns; before
    that it has looked commands up and warned, and done nothing else. *)
Lemma run_command_nothing_kept (h : host) (command : list N) (w : world) :
  fst (filter_commands h (Py.split nl (command_text command)) [] w) = Ok [] ->
  exists evs,
    fst (run_command h command w) = Ok tt
    /\ trace (snd (run_command h command w))
       = trace w ++ evs
         ++ [Secho (lit "No valid commands to execute") (lit "red") true]
    /\ Forall loop_event evs.
Proof.
  intros H.
  destruct (filter_commands_events h (Py.split nl (command_text command)) [] w)
    as (evs & E & Hevs).
  rewrite run_command_unfold.
  destruct (filter_commands h _ [] w) as [r w1]. cbn [fst snd] in *. subst r.
  exists evs. cbn [is_empty fst snd trace]. rewrite E.
  by rewrite <- app_assoc.
Qed.

(** C4, where the code departs from it.  No base command of this text
    resolves: [nosuchtool] is not on the PATH and the second line has none.
    Yet [run_command] does not print its message and return: after the
    lookup of [nosuchtool] and the warning, the second line makes it raise
    [IndexError]. *)
Theorem run_command_raises_where_nothing_resolves :
  run_command (demo_host None (lit "Linux"))
    (lit "nosuchtool --all" ++ nl :: lit "| grep x") empty_world
  = (Raise IndexError,
     {| files := ∅;
        trace := [System (lit "which nosuchtool >/dev/null 2>&1");
                  Secho (lit "Command not found: nosuchtool") (lit "yellow")
                    true] |}).
Proof. vm_compute. reflexivity. Qed.

(** C8, as amended.  When the loop ends with a non-empty list, [run_command]
    makes one more [os.system] call and returns.  On a host other than
    Windows the command line is [$SHELL] (or [/bin/sh]) with [-c] and the
    kept lines joined with ['; '], quoted as one word.  On Windows it is
    [powershell.exe -Command] with the lines joined with ['; '] when
    [PSModulePath] splits at [';'] into three entries or more, and otherwise
    [cmd.exe /c] with the lines joined with [' && '], blanks included. *)
Theorem run_command_invokes_shell
    (h : host) (command : list N) (w : world) (kept : list (list N)) :
  fst (filter_commands h (Py.split nl (command_text command)) [] w) = Ok kept ->
  kept <> [] ->
  run_command h command w
  = (Ok tt,
     snd (os_system h
            (if on_windows h then
               if (3 <=? length (Py.split 59%N
                                   (environ_get h (lit "PSModulePath") [])))%nat
               then lit "powershell.exe -Command " ++ [dquote]
                    ++ Py.join (lit "; ") kept ++ [dquote]
               else lit "cmd.exe /c " ++ [dquote]
                    ++ Py.join (lit " && ") kept ++ [dquote]
             else
               environ_get h (lit "SHELL") (lit "/bin/sh") ++ lit " -c "
               ++ Shlex.quote (Py.join (lit "; ") kept))
            (snd (filter_commands h (Py.split nl (command_text command)) [] w)))).
Proof.
  intros H Hkept. rewrite run_command_unfold.
  destruct (filter_commands h _ [] w) as [r w1]. cbn [fst snd] in *. subst r.
  destruct kept as [|k kept']; [done|]. cbn [is_empty].
  unfold full_command, os_pathsep. by destruct (on_windows h).
Qed.

Lemma run_command_invokes_shell_witness :
  run_command (demo_host (Some (lit "/bin/zsh")) (lit "Linux"))
    (lit "ls -la" ++ nl :: lit "pwd") empty_world
  = (Ok tt,
     {| files := ∅;
        trace := [System (lit "which ls >/dev/null 2>&1");
                  System (lit "which pwd >/dev/null 2>&1");
                  System (lit "/bin/zsh -c 'ls -la; pwd'")] |}).
Proof.
  rewrite (run_command_invokes_shell
             (demo_host (Some (lit "/bin/zsh")) (lit "Linux"))
             (lit "ls -la" ++ nl :: lit "pwd") empty_world
             [lit "ls -la"; lit "pwd"]);
    [vm_compute; reflexivity | vm_compute; reflexivity | discriminate].
Defined.

(** C8 as the specification words it does not hold: for [cmd.exe] the lines
    are joined with [' && '], not with ['&&']. *)
Lemma run_command_cmd_exe_separator :
  ~ (forall (h : host) (command : list N) (w : world) (kept : list (list N)),
       fst (filter_commands h (Py.split nl (command_text command)) [] w) = Ok kept ->
       kept <> [] ->
       trace (snd (run_command h command w))
       = trace (snd (filter_commands h (Py.split nl (command_text command)) [] w))
         ++ [System (claimed_full_command h kept)]).
Proof.
  intros H.
  specialize (H (demo_host None (lit "Windows")) (lit "dir" ++ nl :: lit "ver")
                empty_world [lit "dir"; lit "ver"]).
  vm_compute in H. specialize (H eq_refl).
  assert (E : [lit "dir"; lit "ver"] <> []) by discriminate.
  vm_compute in E. specialize (H E). discriminate H.
Qed.

(** C10.  A line that is not blank but has only whitespace in front of its
    first pipe makes [run_command] raise [IndexError]; up to then it has
    only looked commands up and warned, so nothing was executed. *)
Theorem run_command_raises_IndexError (h : host) (command : list N) (w : world) :
  existsb blank_before_pipe (Py.split nl (command_text command)) = true ->
  fst (run_command h command w) = Raise IndexError
  /\ exists evs,
       trace (snd (run_command h command w)) = trace w ++ evs
       /\ Forall loop_event evs.
Proof.
  intros H.
  assert (E := filter_commands_raises h _ [] w H).
  assert (Hev := filter_commands_events h (Py.split nl (command_text command)) [] w).
  rewrite run_command_unfold.
  destruct (filter_commands h _ [] w) as [r w1]. cbn [fst snd] in *. by subst r.
Qed.

Lemma run_command_raises_IndexError_witness :
  (fst (run_command (demo_host None (lit "Linux")) (lit "| grep x") empty_world)
   = Raise IndexError
   /\ exists evs,
        trace (snd (run_command (demo_host None (lit "Linux")) (lit "| grep x")
                      empty_world))
        = trace empty_world ++ evs
        /\ Forall loop_event evs)
  /\ run_command (demo_host None (lit "Linux")) (lit "| grep x") empty_world
     = (Raise IndexError, empty_world).
Proof.
  split.
  - exact (run_command_raises_IndexError (demo_host None (lit "Linux"))
             (lit "| grep x") empty_world eq_refl).
  - vm_compute. reflexivity.
Defined.

(** ** get_edited_prompt *)

(** C6, as amended.  [get_edited_prompt] creates the temporary file, runs
    the editor on it, reads it, removes it and only then looks at what it
    read.  When the file the editor leaves can be read, the file is removed
    before the text is looked at, so it is gone whether [BadParameter] is
    raised, which happens if the text read is empty, or the text is
    returned as it was read.  When the editor removed the file, the read
    raises and nothing is left to remove.  In all cases [BadParameter] is
    raised if and only if an empty text was read back. *)
Theorem get_edited_prompt_outcomes (h : host) (w : world) :
  let file_path := tempname h (files w) ++ lit ".txt" in
  let editor_cmd :=
    environ_get h (lit "EDITOR") (lit "vim") ++ lit " " ++ file_path in
  let edited := snd (spawn h editor_cmd (<[file_path := []]> (files w))) in
  let r := fst (get_edited_prompt h w) in
  let w' := snd (get_edited_prompt h w) in
  match edited !! file_path with
  | Some text =>
      existsb undecodable text = false ->
      trace w' = trace w ++ [TempFile file_path; System editor_cmd;
                             Read file_path; Remove file_path]
      /\ files w' = delete file_path edited
      /\ files w' !! file_path = None
      /\ r = if is_empty (universal_newlines text)
             then Raise (BadParameter (lit "Couldn't get valid PROMPT from $EDITOR"))
             else Ok (universal_newlines text)
  | None =>
      trace w' = trace w ++ [TempFile file_path; System editor_cmd]
      /\ files w' = edited
      /\ r = Raise (FileNotFoundError file_path)
  end
  /\ ((exists msg, r = Raise (BadParameter msg)) <-> edited !! file_path = Some []).
Proof.
  intros file_path editor_cmd edited r w'. subst r w'.
  unfold get_edited_prompt, bind, named_temporary_file, os_system, read_file,
    os_remove, raise, ret. cbn [files trace].
  fold file_path. fold editor_cmd. subst edited.
  destruct (spawn h editor_cmd (<[file_path:=[]]> (files w))) as [status fs].
  cbn [snd files trace].
  destruct (fs !! file_path) as [text|] eqn:E; cbn [fst snd files trace].
  - destruct (existsb undecodable text) eqn:Eu; cbn [fst snd files trace].
    + split; [done|]. split; [intros [msg [=]]|].
      intros [= ->]. discriminate Eu.
    + rewrite E. cbn [fst snd files trace].
      destruct text as [|c text].
      * cbn [universal_newlines is_empty fst snd files trace].
        rewrite lookup_delete_eq, <- !app_assoc. cbn [app].
        repeat split; eauto.
      * assert (Hne : is_empty (universal_newlines (c :: text)) = false).
        { cbn [universal_newlines]. by destruct (c =? 13)%N. }
        rewrite Hne. cbn [fst snd files trace].
        rewrite lookup_delete_eq, <- !app_assoc. cbn [app].
        repeat split; try done. intros [msg [=]].
  - rewrite <- !app_assoc. cbn [app].
    repeat split; try done. intros [msg [=]].
Qed.

Lemma get_edited_prompt_outcomes_witness :
  fst (get_edited_prompt (demo_host None (lit "Linux")) empty_world)
  = Ok (lit "list files")
  /\ files (snd (get_edited_prompt (demo_host None (lit "Linux")) empty_world))
     !! lit "/tmp/tmpab12.txt" = None.
Proof.
  destruct (get_edited_prompt_outcomes (demo_host None (lit "Linux")) empty_world)
    as [H _].
  vm_compute in H. destruct (H eq_refl) as (_ & _ & Hgone & Hr).
  split; vm_compute; [exact Hr | exact Hgone].
Defined.

(** C6 as the specification words it does not hold: when the editor saves
    bytes that UTF-8 cannot read, the read raises before the file is
    removed, and the temporary file stays. *)
Lemma get_edited_prompt_leaves_unreadable_file :
  ~ (forall (h : host) (w : world),
       files (snd (get_edited_prompt h w)) !! (tempname h (files w) ++ lit ".txt")
       = None).
Proof.
  intros H. specialize (H latin1_host empty_world).
  vm_compute in H. discriminate H.
Qed.

Example get_edited_prompt_latin1 :
  fst (get_edited_prompt latin1_host empty_world)
  = Raise (UnicodeDecodeError (lit "/tmp/tmpab12.txt")).
Proof. vm_compute. reflexivity. Qed.

(** ** option_callback *)

(** C7, as amended.  Called with a falsy value the wrapper returns at once:
    the callback is not run and the world is as before.  Called with a
    truthy value it runs the callback once, on the world as it stands; when
    the callback returns, the wrapper raises [typer.Exit]; when the callback
    raises, that exception goes on to the caller and [typer.Exit] is not
    raised. *)
Theorem option_callback_outcomes
    (func : value -> value -> M unit) (cls value : value) (w : world) :
  option_callback func cls value w
  = if truthy value then
      match func cls value w with
      | (Ok _, w') => (Raise Exit, w')
      | (Raise e, w') => (Raise e, w')
      end
    else (Ok tt, w).
Proof.
  unfold option_callback, bind, raise, ret.
  destruct (truthy value); [|done]. cbn [negb].
  by destruct (func cls value w) as [[[]|e] w'].
Qed.

(** C7 as the specification words it does not hold: under an unsupported
    login shell the installer, a wrapped callback, ends with [UsageError]. *)
Lemma option_callback_callback_raises :
  ~ (forall (func : value -> value -> M unit) (cls value : value) (w : world),
       truthy value = true ->
       fst (option_callback func cls value w) = Raise Exit).
Proof.
  intros H.
  specialize (H (fun cls value =>
                   install_shell_integration_body
                     (demo_host (Some (lit "/usr/bin/fish")) (lit "Linux"))
                     [cls; value])
                VNone (VBool true) empty_world eq_refl).
  vm_compute in H. discriminate H.
Qed.

(** With its flag set [get_sgpt_version] prints the version once and exits. *)
Lemma get_sgpt_version_prints_once (h : host) (cls value : value) (w : world) :
  truthy value = true ->
  get_sgpt_version h cls value w
  = (Raise Exit,
     {| files := files w;
        trace := trace w ++ [Echo (lit "ShellGPT " ++ version h)] |}).
Proof.
  intros Hv. unfold get_sgpt_version, option_callback. rewrite Hv.
  by unfold bind, typer_echo, log, raise.
Qed.

(** ** install_shell_integration *)
Section Install.
Variable h : host.
Implicit Types w : world.

Lemma install_zsh cls value w :
  truthy value = true ->
  Py.contains (lit "zsh") (environ_get h (lit "SHELL") []) = true ->
  fst (install_shell_integration h cls value w) = Raise Exit
  /\ files (snd (install_shell_integration h cls value w))
     = <[expanduser h (lit "~/.zshrc")
         := rc_text (files w) (expanduser h (lit "~/.zshrc")) ++ zsh_integration h]>
       (files w).
Proof.
  intros Hv Hz. unfold install_shell_integration, option_callback. rewrite Hv.
  unfold install_shell_integration_body. rewrite Hz.
  by unfold bind, typer_echo, append_file, log, raise.
Qed.

Lemma install_bash cls value w :
  truthy value = true ->
  Py.contains (lit "zsh") (environ_get h (lit "SHELL") []) = false ->
  Py.contains (lit "bash") (environ_get h (lit "SHELL") []) = true ->
  fst (install_shell_integration h cls value w) = Raise Exit
  /\ files (snd (install_shell_integration h cls value w))
     = <[expanduser h (lit "~/.bashrc")
         := rc_text (files w) (expanduser h (lit "~/.bashrc")) ++ bash_integration h]>
       (files w).
Proof.
  intros Hv Hz Hb. unfold install_shell_integration, option_callback. rewrite Hv.
  unfold install_shell_integration_body. rewrite Hz, Hb.
  by unfold bind, typer_echo, append_file, log, raise.
Qed.

(** A file that every run extends by [blob] holds [n] more copies of it
    after [n] runs. *)
Lemma install_times_appends cls value path blob :
  (forall w, rc_text (files (snd (install_shell_integration h cls value w))) path
             = rc_text (files w) path ++ blob) ->
  forall n w,
    rc_text (files (install_times h cls value n w)) path
    = rc_text (files w) path ++ concat (repeat blob n).
Proof.
  intros Hstep n. induction n as [|n IH]; intros w; cbn [install_times repeat concat].
  - by rewrite app_nil_r.
  - by rewrite IH, Hstep, <- app_assoc.
Qed.

End Install.

(** C5.  When [$SHELL], or the empty text in its place when it is unset,
    contains neither [zsh] nor [bash], the installer raises [UsageError] and
    leaves the world as it found it: no file is written, [~/.zshrc] and
    [~/.bashrc] included.  This holds of the function under the decorator
    for all arguments, and of the decorated one whenever its flag is set. *)
Theorem install_shell_integration_unsupported
    (h : host) (cls value : value) (w : world) :
  Py.contains (lit "zsh") (environ_get h (lit "SHELL") []) = false ->
  Py.contains (lit "bash") (environ_get h (lit "SHELL") []) = false ->
  (forall args, install_shell_integration_body h args w = (Raise usage_error, w))
  /\ (truthy value = true ->
      install_shell_integration h cls value w = (Raise usage_error, w)).
Proof.
  intros Hz Hb.
  assert (Hbody : forall args,
             install_shell_integration_body h args w = (Raise usage_error, w)).
  { intros args. unfold install_shell_integration_body. by rewrite Hz, Hb. }
  split; [done|]. intros Hv.
  unfold install_shell_integration, option_callback. rewrite Hv. cbn [negb].
  unfold bind. by rewrite Hbody.
Qed.

Lemma install_shell_integration_unsupported_witness :
  install_shell_integration (demo_host (Some (lit "/usr/bin/fish")) (lit "Linux"))
    VNone (VBool true)
    {| files := {[ lit "/home/user/.zshrc" := lit "alias l=ls" ]}; trace := [] |}
  = (Raise usage_error,
     {| files := {[ lit "/home/user/.zshrc" := lit "alias l=ls" ]}; trace := [] |}).
Proof.
  apply (install_shell_integration_unsupported
           (demo_host (Some (lit "/usr/bin/fish")) (lit "Linux")));
    reflexivity.
Defined.

(** C9.  The installer does not look at what the rc file holds: under a
    login shell it supports, [n] runs with the flag set leave the rc file of
    that shell with its former text followed by [n] copies of the
    integration text, two copies after two runs. *)
Theorem install_shell_integration_not_idempotent
    (h : host) (cls value : value) (n : nat) (w : world) :
  truthy value = true ->
  let shell := environ_get h (lit "SHELL") [] in
  (Py.contains (lit "zsh") shell = true ->
   rc_text (files (install_times h cls value n w)) (expanduser h (lit "~/.zshrc"))
   = rc_text (files w) (expanduser h (lit "~/.zshrc"))
     ++ concat (repeat (zsh_integration h) n))
  /\ (Py.contains (lit "zsh") shell = false ->
      Py.contains (lit "bash") shell = true ->
      rc_text (files (install_times h cls value n w)) (expanduser h (lit "~/.bashrc"))
      = rc_text (files w) (expanduser h (lit "~/.bashrc"))
        ++ concat (repeat (bash_integration h) n)).
Proof.
  intros Hv shell. subst shell. split.
  - intros Hz. apply install_times_appends. intros w0.
    destruct (install_zsh h cls value w0 Hv Hz) as [_ ->].
    unfold rc_text at 1. by rewrite lookup_insert_eq.
  - intros Hz Hb. apply install_times_appends. intros w0.
    destruct (install_bash h cls value w0 Hv Hz Hb) as [_ ->].
    unfold rc_text at 1. by rewrite lookup_insert_eq.
Qed.

Lemma install_shell_integration_not_idempotent_witness :
  rc_text
    (files (install_times (demo_host (Some (lit "/bin/zsh")) (lit "Linux"))
              VNone (VBool true) 2
              {| files := {[ lit "/home/user/.zshrc" := lit "alias l=ls;" ]};
                 trace := [] |}))
    (lit "/home/user/.zshrc")
  = lit "alias l=ls;" ++ lit "# zsh widget" ++ lit "# zsh widget".
Proof.
  destruct (install_shell_integration_not_idempotent
              (demo_host (Some (lit "/bin/zsh")) (lit "Linux"))
              VNone (VBool true) 2
              {| files := {[ lit "/home/user/.zshrc" := lit "alias l=ls;" ]};
                 trace := [] |} eq_refl) as [H _].
  refine (eq_trans (H eq_refl) _). vm_compute. reflexivity.
Defined.

(** The example of the specification. *)
Example sanitize_spec_example :
  command_text
    (lit "<think>reasoning</think>```bash" ++ nl :: lit "ls -la" ++ nl :: lit "```")
  = lit "ls -la".
Proof. vm_compute. reflexivity. Qed.

Example run_command_spec_example :
  run_command (demo_host None (lit "Linux"))
    (lit "<think>reasoning</think>```bash" ++ nl :: lit "ls -la" ++ nl :: lit "```")
    empty_world
  = (Ok tt,
     {| files := ∅;
        trace := [System (lit "which ls >/dev/null 2>&1");
                  System (lit "/bin/sh -c 'ls -la'")] |}).
Proof. vm_compute. reflexivity. Qed.

(** * Further properties *)

(** ** What a match is made of *)
Section MatchShape.
Implicit Types s t l : list N.
Implicit Types p : list Re.node.

Lemma star_greedy_after l k cont :
  leaves_after l cont -> leaves_after l (Re.star_greedy k cont).
Proof.
  intros Hc s. induction s as [|c s IH]; intros g rest; simpl.
  - apply Hc.
  - destruct (Re.cls_test k c); [|apply Hc].
    destruct (Re.star_greedy k cont s) as [[g' r']|] eqn:E; [|apply Hc].
    intros [= -> ->]. destruct (IH _ _ eq_refl) as [m ->]. by exists (c :: m).
Qed.

Lemma star_lazy_after l k cont :
  leaves_after l cont -> leaves_after l (Re.star_lazy k cont).
Proof.
  intros Hc s. induction s as [|c s IH]; intros g rest; simpl.
  - destruct (cont []) as [[g' r']|] eqn:E; [|done].
    intros [= -> ->]. eauto.
  - destruct (cont (c :: s)) as [[g' r']|] eqn:E.
    + intros [= -> ->]. eauto.
    + destruct (Re.cls_test k c); [|done].
      intros H. destruct (IH _ _ H) as [m ->]. by exists (c :: m).
Qed.

Lemma star_lazy_group_after l k cont acc :
  leaves_after l cont -> leaves_after l (Re.star_lazy_group k cont acc).
Proof.
  intros Hc s. revert acc. induction s as [|c s IH]; intros acc g rest; simpl.
  - destruct (cont []) as [[g' r']|] eqn:E; [|done].
    intros [= <- <-]. eauto.
  - destruct (cont (c :: s)) as [[g' r']|] eqn:E.
    + intros [= <- <-]. eauto.
    + destruct (Re.cls_test k c); [|done].
      intros H. destruct (IH _ _ _ H) as [m ->]. by exists (c :: m).
Qed.

(** A pattern that ends with a literal matches up to an occurrence of it. *)
Lemma match_here_after l p : leaves_after l (Re.match_here (p ++ [Re.Lit l])).
Proof.
  induction p as [|[l'|l'|k|k|k] p IH]; intros s g rest; cbn [app Re.match_here].
  - destruct (Re.strip_prefix l s) as [s'|] eqn:E; [|done].
    intros [= <- <-]. apply strip_prefix_Some in E. by exists [].
  - destruct (Re.strip_prefix l' s) as [s'|] eqn:E; [|done].
    intros H. apply strip_prefix_Some in E. subst s.
    destruct (IH _ _ _ H) as [m ->]. exists (l' ++ m). by rewrite <- app_assoc.
  - destruct (Re.strip_prefix l' s) as [s'|] eqn:E; [|by apply IH].
    destruct (Re.match_here (p ++ [Re.Lit l]) s') as [[g' r']|] eqn:E'; [|by apply IH].
    intros [= <- <-]. apply strip_prefix_Some in E. subst s.
    destruct (IH _ _ _ E') as [m ->]. exists (l' ++ m). by rewrite <- app_assoc.
  - by apply star_greedy_after.
  - by apply star_lazy_after.
  - by apply star_lazy_group_after.
Qed.

(** A match of the think pattern is a whole span. *)
Lemma think_match_shape s g rest :
  Re.match_here think_re s = Some (g, rest) ->
  exists body, s = think_open ++ body ++ think_close ++ rest.
Proof.
  unfold think_re. rewrite match_here_Lit.
  destruct (Re.strip_prefix think_open s) as [s'|] eqn:E; [|done].
  apply strip_prefix_Some in E. subst s. intros H.
  destruct (match_here_after think_close [Re.LazyStar Re.Any] _ _ _ H) as [m ->].
  by exists m.
Qed.

(** A match of the block pattern is a pair of fences. *)
Lemma code_block_match_shape s g rest :
  Re.match_here code_block_re s = Some (g, rest) ->
  exists inner, s = fence ++ inner ++ fence ++ rest.
Proof.
  unfold code_block_re. rewrite match_here_Lit.
  destruct (Re.strip_prefix fence s) as [s'|] eqn:E; [|done].
  apply strip_prefix_Some in E. subst s. intros H.
  destruct (match_here_after fence
              [Re.Opt (lit "bash"); Re.Star Re.Space; Re.Group1 Re.Any;
               Re.Star Re.Space] _ _ _ H) as [m ->].
  by exists m.
Qed.

Lemma contains_app l s t : Py.contains l (s ++ l ++ t) = true.
Proof.
  induction s as [|c s IH].
  - cbn [app]. destruct (l ++ t) eqn:E; cbn [Py.contains]; rewrite <- E;
      by rewrite startswith_app_long, startswith_self.
  - cbn [app Py.contains]. rewrite IH. apply orb_true_r.
Qed.

(** [re.sub] leaves a text without any match as it is. *)
Lemma sub_no_match p s :
  (forall t, t `suffix_of` s -> Re.match_here p t = None) -> Re.sub p s = s.
Proof.
  induction s as [|c s IH]; intros H; rewrite sub_unfold, (H _ ltac:(by exists [])).
  - done.
  - f_equal. apply IH. intros t Ht. apply H. by apply suffix_cons_r.
Qed.

Lemma search_no_match p s :
  (forall t, t `suffix_of` s -> Re.match_here p t = None) -> Re.search p s = None.
Proof.
  induction s as [|c s IH]; intros H; cbn [Re.search]; rewrite (H _ ltac:(by exists [])).
  - done.
  - apply IH. intros t Ht. apply H. by apply suffix_cons_r.
Qed.

Lemma contains_suffix l t s :
  t `suffix_of` s -> Py.contains l t = true -> Py.contains l s = true.
Proof.
  intros [u ->]. induction u as [|c u IH]; [done|].
  intros H. cbn [app Py.contains]. rewrite (IH H). apply orb_true_r.
Qed.

End MatchShape.


(** ** More on sanitize_command *)
Section SanitizeMore.
Implicit Types s t : list N.

Lemma sub_sublist p : forall s, Re.sub p s `sublist_of` s.
Proof.
  intros s. induction s as [s IH] using (well_founded_induction
    (well_founded_ltof _ (@length N))).
  rewrite sub_unfold.
  assert (Hstep : match s with [] => [] | d :: s' => d :: Re.sub p s' end
                    `sublist_of` s).
  { destruct s as [|d s']; [done|]. apply sublist_skip, IH. unfold ltof. simpl. lia. }
  destruct (Re.match_here p s) as [[g rest]|] eqn:Em; [|done].
  destruct (length rest <? length s) eqn:E; [|done].
  apply Nat.ltb_lt in E. apply match_here_suffix in Em. destruct Em as [m ->].
  apply sublist_inserts_l, IH. exact E.
Qed.

Lemma lstrip_sublist s : Py.lstrip s `sublist_of` s.
Proof.
  induction s as [|c s IH]; simpl; [done|].
  destruct (Py.isspace c); [by apply sublist_cons|done].
Qed.

Lemma rstrip_sublist s : Py.rstrip s `sublist_of` s.
Proof.
  induction s as [|c s IH]; [done|]. rewrite rstrip_cons.
  destruct (forallb Py.isspace (c :: s)); [apply sublist_nil_l|by apply sublist_skip].
Qed.

Lemma strip_sublist s : Py.strip s `sublist_of` s.
Proof.
  unfold Py.strip. etrans; [apply rstrip_sublist|apply lstrip_sublist].
Qed.

Lemma lstrip_head s c : head (Py.lstrip s) = Some c -> Py.isspace c = false.
Proof.
  induction s as [|d s IH]; simpl; [done|].
  destruct (Py.isspace d) eqn:E; [done|]. simpl. by intros [= <-].
Qed.

Lemma rstrip_last s c : last (Py.rstrip s) = Some c -> Py.isspace c = false.
Proof.
  unfold Py.rstrip. destruct (Py.lstrip (rev s)) as [|d u] eqn:E; [done|].
  simpl rev. rewrite last_snoc. intros [= <-].
  apply (lstrip_head (rev s)). by rewrite E.
Qed.

(** A trimmed text neither starts nor ends with whitespace. *)
Lemma strip_ends s c :
  head (Py.strip s) = Some c \/ last (Py.strip s) = Some c -> Py.isspace c = false.
Proof.
  intros [H|H]; [|by apply rstrip_last in H].
  destruct (strip_cases s) as [[_ E]|[_ (d & t & E & Hd)]]; rewrite E in H; [done|].
  simpl in H. by injection H as <-.
Qed.

End SanitizeMore.

(** X1.  A text in which the opening tag or the closing tag does not occur
    has no span to delete: [sanitize_command] only trims it.  So the
    reasoning of a block that was opened and never closed stays in. *)
Theorem sanitize_command_without_span (command : list N) :
  Py.contains think_open command = false
  \/ Py.contains think_close command = false ->
  sanitize_command command = Py.strip command.
Proof.
  intros H. unfold sanitize_command. f_equal. apply sub_no_match.
  intros t Ht. destruct (Re.match_here think_re t) as [[g rest]|] eqn:E; [|done].
  apply think_match_shape in E as [body ->]. exfalso.
  destruct H as [H|H].
  - assert (Ho := contains_app think_open [] (body ++ think_close ++ rest)).
    apply (contains_suffix _ _ _ Ht) in Ho. congruence.
  - assert (Hc := contains_app think_close (think_open ++ body) rest).
    rewrite <- app_assoc in Hc.
    apply (contains_suffix _ _ _ Ht) in Hc. congruence.
Qed.

Lemma sanitize_command_without_span_witness :
  sanitize_command (lit " <think>list the files" ++ nl :: lit "ls -la ")
  = lit "<think>list the files" ++ nl :: lit "ls -la".
Proof.
  rewrite (sanitize_command_without_span
             (lit " <think>list the files" ++ nl :: lit "ls -la "));
    [reflexivity | right; reflexivity].
Defined.

(** X2.  [sanitize_command] only deletes: its output is the input with some
    of its characters left out, the others in their order. *)
Theorem sanitize_command_sublist (command : list N) :
  sanitize_command command `sublist_of` command.
Proof.
  unfold sanitize_command. etrans; [apply strip_sublist|apply sub_sublist].
Qed.

(** X3.  The output of [sanitize_command] neither starts nor ends with a
    whitespace character. *)
Theorem sanitize_command_trimmed (command : list N) (c : N) :
  head (sanitize_command command) = Some c
  \/ last (sanitize_command command) = Some c ->
  Py.isspace c = false.
Proof. apply strip_ends. Qed.

Lemma sanitize_command_trimmed_witness :
  head (sanitize_command (lit "  <think>x</think> ls  ")) = Some 108%N
  /\ Py.isspace 108%N = false.
Proof.
  split; [reflexivity|].
  apply (sanitize_command_trimmed (lit "  <think>x</think> ls  ") 108%N).
  left. reflexivity.
Defined.

(** ** More on the fenced block *)
Section CodeBlockMore.
Implicit Types s t pre r : list N.

(** The first occurrence of a needle is no later than any other. *)
Lemma first_at_earliest needle pre : forall x a y,
  first_at needle pre = true ->
  pre ++ needle ++ x = a ++ needle ++ y ->
  length pre <= length a.
Proof.
  induction pre as [|c pre IH]; intros x a y H E; [simpl; lia|].
  apply (first_at_cons _ _ _ x) in H as [H1 H2].
  destruct a as [|d a].
  - exfalso. cbn [app] in E. rewrite E, strip_prefix_app in H1. discriminate H1.
  - cbn [app] in E. injection E as _ E. apply (IH _ _ _ H2) in E. simpl. lia.
Qed.

Lemma first_at_unique needle pre pre' x x' :
  first_at needle pre = true ->
  first_at needle pre' = true ->
  pre ++ needle ++ x = pre' ++ needle ++ x' ->
  pre = pre' /\ x = x'.
Proof.
  intros H H' E.
  assert (Hlen : length pre = length pre').
  { apply Nat.le_antisymm; [eapply first_at_earliest|eapply first_at_earliest]; eauto. }
  apply app_inj_1 in E as [-> E]; [|done].
  by apply app_inv_head in E.
Qed.

(** Where [re.search] finds the pattern there are two fences. *)
Lemma search_code_block_shape t g :
  Re.search code_block_re t = Some g ->
  exists a b c, t = a ++ fence ++ b ++ fence ++ c.
Proof.
  induction t as [|d t IH]; cbn [Re.search].
  - destruct (Re.match_here code_block_re []) as [[g' rest]|] eqn:E; [|done].
    apply code_block_match_shape in E as [inner E]. intros _. by exists [], inner, rest.
  - destruct (Re.match_here code_block_re (d :: t)) as [[g' rest]|] eqn:E.
    + apply code_block_match_shape in E as [inner E]. intros _.
      by exists [], inner, rest.
    + intros H. destruct (IH H) as (a & b & c & ->). by exists (d :: a), b, c.
Qed.

(** What [re.search] returns is a trimmed text. *)
Lemma search_code_block_strip t g :
  Re.search code_block_re t = Some g -> exists r, g = Py.strip (drop_tag r).
Proof.
  intros H. destruct (search_code_block_shape _ _ H) as (a & b & c & ->).
  destruct (leftmost_span fence fence a b c) as (pre & r & post & E & Hpre & Hr).
  rewrite E, search_code_block in H by done. injection H as <-. by exists r.
Qed.

End CodeBlockMore.

(** X4.  Fenced or not, the text that [run_command] splits into lines
    neither starts nor ends with a whitespace character. *)
Theorem command_text_trimmed (command : list N) (c : N) :
  head (command_text command) = Some c \/ last (command_text command) = Some c ->
  Py.isspace c = false.
Proof.
  unfold command_text.
  destruct (Re.search code_block_re (sanitize_command command)) as [g|] eqn:E.
  - destruct (search_code_block_strip _ _ E) as [r ->]. apply strip_ends.
  - apply strip_ends.
Qed.

Lemma command_text_trimmed_witness :
  last (command_text (lit "see ```bash" ++ nl :: lit "ls " ++ nl :: lit "``` "))
  = Some 115%N
  /\ Py.isspace 115%N = false.
Proof.
  split; [reflexivity|].
  apply (command_text_trimmed
           (lit "see ```bash" ++ nl :: lit "ls " ++ nl :: lit "``` ") 115%N).
  right. reflexivity.
Defined.

(** X5.  Without a pair of fences nothing is extracted: when the sanitized
    text has no fence, or has a first fence and no fence after it, it is
    used whole, the fence that was opened and its tag included. *)
Theorem command_text_without_block (command : list N) :
  Py.contains fence (sanitize_command command) = false
  \/ (exists pre r,
        sanitize_command command = pre ++ fence ++ r
        /\ first_at fence pre = true
        /\ Py.contains fence r = false) ->
  command_text command = sanitize_command command.
Proof.
  intros H. unfold command_text.
  destruct (Re.search code_block_re (sanitize_command command)) as [g|] eqn:E; [|done].
  exfalso. destruct (search_code_block_shape _ _ E) as (a & b & c & Et).
  destruct H as [H|(pre & r & Er & Hpre & Hr)].
  - rewrite Et, contains_app in H. discriminate H.
  - destruct (leftmost_span fence fence a b c) as (pre' & r' & post & E' & Hpre' & _).
    rewrite Er, E' in Et.
    apply first_at_unique in Et as [_ ->]; [|done..].
    rewrite contains_app in Hr. discriminate Hr.
Qed.

Lemma command_text_without_block_witness :
  command_text (lit "```bash" ++ nl :: lit "ls -la")
  = lit "```bash" ++ nl :: lit "ls -la".
Proof.
  rewrite (command_text_without_block (lit "```bash" ++ nl :: lit "ls -la")).
  - reflexivity.
  - right. exists [], (lit "bash" ++ nl :: lit "ls -la").
    split; [reflexivity|]. split; reflexivity.
Defined.

(** ** More on the base command *)
Section BaseCommandMore.
Implicit Types s t w cmd base : list N.

Lemma lstrip_split s : exists ws, s = ws ++ Py.lstrip s /\ blank ws = true.
Proof.
  induction s as [|c s (ws & E & Hws)]; [by exists []|]. simpl.
  destruct (Py.isspace c) eqn:Ec; [|by exists []].
  exists (c :: ws). unfold blank. simpl. rewrite Ec. by rewrite <- E.
Qed.

Lemma rstrip_split s : exists ws, s = Py.rstrip s ++ ws /\ blank ws = true.
Proof.
  induction s as [|c s (ws & E & Hws)]; [by exists []|]. rewrite rstrip_cons.
  destruct (forallb Py.isspace (c :: s)) eqn:Ec; [by exists (c :: s)|].
  exists ws. by rewrite <- app_comm_cons, <- E.
Qed.

(** The words of [split()] are not empty and hold no whitespace. *)
Lemma split_ws_words s :
  Forall (fun w => w <> [] /\ forallb no_space w = true) (Py.split_ws s).
Proof.
  induction s as [|c s IH]; simpl; [constructor|].
  destruct (Py.isspace c) eqn:Ec; [done|].
  assert (Hc : no_space c = true) by (unfold no_space; by rewrite Ec).
  destruct s as [|d s]; [repeat constructor; simpl; by rewrite ?Hc|].
  destruct (Py.isspace d) eqn:Ed.
  - constructor; [|done]. simpl. by rewrite Hc.
  - destruct (Py.split_ws (d :: s)) as [|w ws].
    + repeat constructor; simpl; by rewrite ?Hc.
    + inversion IH as [|? ? [_ Hw] Hws]; subst.
      constructor; [|done]. simpl. by rewrite Hc, Hw.
Qed.

(** The first word of [split()] is the first run of other characters. *)
Lemma split_ws_first s w l :
  Py.split_ws s = w :: l ->
  exists ws rest,
    s = ws ++ w ++ rest /\ blank ws = true /\ blank (take 1 rest) = true.
Proof.
  revert w l. induction s as [|c s IH]; intros w l; simpl; [done|].
  destruct (Py.isspace c) eqn:Ec.
  - intros H. destruct (IH _ _ H) as (ws & rest & -> & Hws & Hrest).
    exists (c :: ws), rest. unfold blank in *. simpl. by rewrite Ec.
  - destruct s as [|d s]; [intros [= <- <-]; by exists [], []|].
    destruct (Py.isspace d) eqn:Ed.
    + intros [= <- <-]. exists [], (d :: s). unfold blank. simpl. by rewrite Ed.
    + destruct (Py.split_ws (d :: s)) as [|w' ws'] eqn:Es.
      * apply split_ws_nil in Es. unfold blank in Es. simpl in Es.
        by rewrite Ed in Es.
      * intros [= <- <-]. destruct (IH _ _ eq_refl) as (ws & rest & E & Hws & Hrest).
        destruct ws as [|e ws].
        -- exists [], rest. cbn [app] in *. by rewrite E.
        -- exfalso. cbn [app] in E. injection E as <- _.
           unfold blank in Hws. simpl in Hws. by rewrite Ed in Hws.
Qed.

Lemma before_first_not_In sep s : ~ In sep (before_first sep s).
Proof.
  induction s as [|c s IH]; simpl; [tauto|].
  destruct (c =? sep)%N eqn:E; simpl; [tauto|].
  apply N.eqb_neq in E. tauto.
Qed.

Lemma blank_app s t : blank (s ++ t) = blank s && blank t.
Proof. apply forallb_app. Qed.

Lemma blank_take n s : blank s = true -> blank (take n s) = true.
Proof.
  unfold blank. revert n. induction s as [|c s IH]; intros [|n]; simpl; try done.
  intros [-> H]%andb_true_iff. simpl. auto.
Qed.

End BaseCommandMore.

(** X6.  The base command of a line is its first word in front of the first
    pipe: the text before the pipe is whitespace, then the base command,
    then nothing or a whitespace character.  So the base command is not
    empty and holds neither whitespace nor a pipe character. *)
Theorem base_cmd_first_word (cmd base : list N) :
  base_cmd cmd = Ok base ->
  base <> []
  /\ forallb no_space base = true
  /\ ~ In 124%N base
  /\ exists ws rest,
       before_first 124%N cmd = ws ++ base ++ rest
       /\ blank ws = true
       /\ blank (take 1 rest) = true.
Proof.
  unfold base_cmd. destruct (split_before_first 124%N cmd) as [l ->]. cbn [index0].
  destruct (Py.split_ws (Py.strip (before_first 124%N cmd))) as [|w ws] eqn:E; [done|].
  intros [= ->].
  assert (Hw := split_ws_words (Py.strip (before_first 124%N cmd))).
  rewrite E in Hw. inversion Hw as [|? ? [Hne Hsp] _]; subst.
  destruct (split_ws_first _ _ _ E) as (ws1 & rest & E1 & Hws1 & Hrest).
  destruct (lstrip_split (before_first 124%N cmd)) as (ws0 & E0 & Hws0).
  destruct (rstrip_split (Py.lstrip (before_first 124%N cmd))) as (ws2 & E2 & Hws2).
  fold (Py.strip (before_first 124%N cmd)) in E2. rewrite E1 in E2.
  assert (Ecmd : before_first 124%N cmd = (ws0 ++ ws1) ++ base ++ (rest ++ ws2)).
  { rewrite E0 at 1. rewrite E2. by rewrite <- !app_assoc. }
  split; [done|]. split; [done|]. split.
  - intros Hin. apply (before_first_not_In 124%N cmd). rewrite Ecmd.
    apply in_or_app. right. apply in_or_app. by left.
  - exists (ws0 ++ ws1), (rest ++ ws2). split; [done|].
    split; [by rewrite blank_app, Hws0, Hws1|].
    destruct rest as [|d rest]; [by apply blank_take|done].
Qed.

Lemma base_cmd_first_word_witness :
  base_cmd (lit "  grep -v x | wc") = Ok (lit "grep")
  /\ forallb no_space (lit "grep") = true.
Proof.
  split; [reflexivity|].
  by destruct (base_cmd_first_word (lit "  grep -v x | wc") (lit "grep") eq_refl)
    as (_ & H & _).
Defined.

(** ** More on the loop and on run_command *)
Section RunCommandMore.
Variable h : host.
Implicit Types cmd command : list N.
Implicit Types commands filtered kept : list (list N).
Implicit Types w : world.

Ltac loop_case :=
  cbn [filter_commands]; rewrite ?is_empty_strip;
  unfold bind, lift, os_system, typer_secho, log; cbn [fst snd files trace].

(** Whatever the lookups answer, the loop adds to its list lines it was
    given, in their order, and none of them blank. *)
Lemma filter_commands_kept commands : forall filtered w kept_all,
  fst (filter_commands h commands filtered w) = Ok kept_all ->
  exists kept,
    kept_all = filtered ++ kept
    /\ kept `sublist_of` commands
    /\ Forall (fun cmd => blank cmd = false) kept.
Proof.
  induction commands as [|cmd commands IH]; intros filtered w kept_all.
  - intros [= <-]. exists []. by rewrite app_nil_r.
  - loop_case. destruct (blank cmd) eqn:Eb.
    { intros H. destruct (IH _ _ _ H) as (kept & -> & Hs & Hf).
      exists kept. split; [done|]. split; [by apply sublist_cons|done]. }
    destruct (base_cmd cmd) as [base|e]; [|done].
    assert (Hkeep : forall w1,
      fst (filter_commands h commands (filtered ++ [cmd]) w1) = Ok kept_all ->
      exists kept, kept_all = filtered ++ kept
                   /\ kept `sublist_of` cmd :: commands
                   /\ Forall (fun cmd => blank cmd = false) kept).
    { intros w1 H. destruct (IH _ _ _ H) as (kept & -> & Hs & Hf).
      exists (cmd :: kept). rewrite <- app_assoc. split; [done|].
      split; [by apply sublist_skip|by constructor]. }
    assert (Hdrop : forall w1,
      fst (filter_commands h commands filtered w1) = Ok kept_all ->
      exists kept, kept_all = filtered ++ kept
                   /\ kept `sublist_of` cmd :: commands
                   /\ Forall (fun cmd => blank cmd = false) kept).
    { intros w1 H. destruct (IH _ _ _ H) as (kept & -> & Hs & Hf).
      exists kept. split; [done|]. split; [by apply sublist_cons|done]. }
    destruct (negb (on_windows h)); [|apply Hkeep].
    destruct (spawn h (check_cmd base) (files w)) as [status fs'].
    destruct (status =? 0)%Z; [apply Hkeep|apply Hdrop].
Qed.

(** On Windows the loop looks nothing up: it keeps every line that is not
    blank and leaves the world as it is. *)
Lemma filter_commands_windows commands :
  on_windows h = true ->
  forall filtered w,
  existsb blank_before_pipe commands = false ->
  filter_commands h commands filtered w
  = (Ok (filtered ++ List.filter (fun cmd => negb (blank cmd)) commands), w).
Proof.
  intros Hwin. induction commands as [|cmd commands IH]; intros filtered w.
  - intros _. cbn [filter_commands List.filter]. by rewrite app_nil_r.
  - cbn [existsb List.filter]. unfold blank_before_pipe at 1. loop_case.
    destruct (blank cmd); cbn [negb andb orb]; [apply IH|].
    destruct (base_cmd_cases cmd) as [[-> ->]|[-> [base ->]]]; [done|].
    cbn [orb]. intros H. rewrite Hwin. cbn [negb].
    rewrite (IH _ _ H). by rewrite <- app_assoc.
Qed.

Lemma blank_no_needle c0 l s :
  Py.isspace c0 = false -> blank s = true -> Py.contains (c0 :: l) s = false.
Proof.
  intros Hc. unfold blank. induction s as [|c s IH]; [done|].
  cbn [forallb Py.contains Py.startswith]. intros [Hs H]%andb_true_iff.
  rewrite (IH H). destruct (c0 =? c)%N eqn:E; [|done].
  apply N.eqb_eq in E. congruence.
Qed.

(** Of a blank input nothing is left. *)
Lemma command_text_blank command : blank command = true -> command_text command = [].
Proof.
  intros H. assert (Es : sanitize_command command = []).
  { unfold sanitize_command. rewrite sub_no_match.
    - by destruct (strip_cases command) as [[_ ->]|[E _]]; [|congruence].
    - intros t Ht. destruct (Re.match_here think_re t) as [[g rest]|] eqn:E; [|done].
      apply think_match_shape in E as [body ->]. exfalso.
      assert (Ho := contains_app think_open [] (body ++ think_close ++ rest)).
      apply (contains_suffix _ _ _ Ht) in Ho.
      unfold think_open in Ho. cbn [lit] in Ho.
      rewrite blank_no_needle in Ho; done. }
  unfold command_text. by rewrite Es.
Qed.

End RunCommandMore.

(** X7.  Whatever the PATH lookups answer, the commands the loop keeps are
    lines of the text, in the order of the text, and none of them is blank:
    the loop neither reorders nor repeats nor invents a line. *)
Theorem filter_commands_keeps_lines
    (h : host) (commands kept : list (list N)) (w : world) :
  fst (filter_commands h commands [] w) = Ok kept ->
  kept `sublist_of` commands /\ Forall (fun cmd => blank cmd = false) kept.
Proof.
  intros H. by destruct (filter_commands_kept h _ _ _ _ H) as (kept' & -> & Hs & Hf).
Qed.

Lemma filter_commands_keeps_lines_witness :
  [lit "ls -la"; lit "pwd"]
    `sublist_of` [lit "ls -la"; lit "  "; lit "nosuchtool x"; lit "pwd"]
  /\ Forall (fun cmd => blank cmd = false) [lit "ls -la"; lit "pwd"].
Proof.
  apply (filter_commands_keeps_lines (demo_host None (lit "Linux"))
           [lit "ls -la"; lit "  "; lit "nosuchtool x"; lit "pwd"]
           [lit "ls -la"; lit "pwd"] empty_world).
  vm_compute. reflexivity.
Defined.

(** X8.  On Windows no command is looked up.  When no line raises, all the
    lines that are not blank go to the one shell call that is made, in
    their order, and nothing else happens: no lookup and no warning. *)
Theorem run_command_windows (h : host) (command : list N) (w : world) :
  on_windows h = true ->
  existsb blank_before_pipe (Py.split nl (command_text command)) = false ->
  let kept :=
    List.filter (fun cmd => negb (blank cmd)) (Py.split nl (command_text command)) in
  kept <> [] ->
  fst (run_command h command w) = Ok tt
  /\ trace (snd (run_command h command w))
     = trace w ++ [System (full_command h kept)].
Proof.
  intros Hwin Hok kept Hkept. rewrite run_command_unfold.
  rewrite (filter_commands_windows h _ Hwin [] w Hok). cbn [app]. fold kept.
  destruct kept as [|k kept'] eqn:Ek; [done|]. cbn [is_empty].
  unfold os_system. by destruct (spawn h _ (files w)).
Qed.

Lemma run_command_windows_witness :
  fst (run_command (demo_host None (lit "Windows"))
         (lit "nosuchtool /x" ++ nl :: nl :: lit "ver") empty_world) = Ok tt
  /\ trace (snd (run_command (demo_host None (lit "Windows"))
                   (lit "nosuchtool /x" ++ nl :: nl :: lit "ver") empty_world))
     = [System (lit "cmd.exe /c " ++ [dquote] ++ lit "nosuchtool /x && ver"
                ++ [dquote])].
Proof.
  apply (run_command_windows (demo_host None (lit "Windows"))
           (lit "nosuchtool /x" ++ nl :: nl :: lit "ver") empty_world);
    [reflexivity | reflexivity | discriminate].
Defined.

(** X9.  When nothing is left of the text, as for a blank input, a lone
    think span or an empty fenced block, [run_command] prints its error
    message and does nothing else: not one [os.system] call, on any host. *)
Theorem run_command_empty_text (h : host) (command : list N) (w : world) :
  blank command = true \/ command_text command = [] ->
  run_command h command w
  = (Ok tt,
     {| files := files w;
        trace := trace w
                 ++ [Secho (lit "No valid commands to execute") (lit "red") true] |}).
Proof.
  intros H. assert (E : command_text command = []).
  { destruct H as [H|H]; [by apply command_text_blank|done]. }
  rewrite run_command_unfold, E. reflexivity.
Qed.

Lemma run_command_empty_text_witness :
  run_command (demo_host None (lit "Linux"))
    (lit "<think>nothing to do</think> ``` ```") empty_world
  = (Ok tt,
     {| files := ∅;
        trace := [Secho (lit "No valid commands to execute") (lit "red") true] |}).
Proof.
  apply (run_command_empty_text (demo_host None (lit "Linux"))
           (lit "<think>nothing to do</think> ``` ```") empty_world).
  right. reflexivity.
Defined.




(** ** The quoting of the command line *)
Section Quoting.
Implicit Types s : list N.

Lemma safe_not_quote c : Shlex.safe c = true -> (c =? 39)%N = false /\ (c =? 34)%N = false.
Proof.
  intros H. split.
  - destruct (c =? 39)%N eqn:E; [|done]. apply N.eqb_eq in E. subst c. discriminate H.
  - destruct (c =? 34)%N eqn:E; [|done]. apply N.eqb_eq in E. subst c. discriminate H.
Qed.

Lemma sh_word_safe s : forallb Shlex.safe s = true -> sh_word Bare s = Some s.
Proof.
  induction s as [|c s IH]; [done|]. cbn [forallb sh_word].
  intros [Hc Hs]%andb_true_iff. destruct (safe_not_quote c Hc) as [-> ->].
  by rewrite Hc, (IH Hs).
Qed.

(** Between single quotes: every quote of the text is closed, written
    between double quotes and opened again. *)
Lemma sh_word_single s :
  sh_word Single
    (Py.replace 39%N
       (Shlex.squote ++ [dquote] ++ Shlex.squote ++ [dquote] ++ Shlex.squote) s
     ++ Shlex.squote)
  = Some s.
Proof.
  unfold Py.replace.
  change (Shlex.squote ++ [dquote] ++ Shlex.squote ++ [dquote] ++ Shlex.squote)
    with [39; 34; 39; 34; 39]%N.
  change Shlex.squote with [39]%N.
  induction s as [|c s IH]; [done|]. cbn [flat_map].
  destruct (c =? 39)%N eqn:E.
  - apply N.eqb_eq in E. subst c.
    cbn [app sh_word N.eqb Pos.eqb orb]. cbn [app] in IH. by rewrite IH.
  - cbn [app sh_word]. cbn [app] in IH. by rewrite E, IH.
Qed.

(** [shlex.quote] writes one word, and the shell reads the text back. *)
Lemma sh_word_quote s : sh_word Bare (Shlex.quote s) = Some s.
Proof.
  unfold Shlex.quote. destruct s as [|c s]; [done|]. cbn [is_empty].
  destruct (forallb Shlex.safe (c :: s)) eqn:E; [by apply sh_word_safe|].
  change (Shlex.squote ++ ?x) with (39%N :: x). cbn [sh_word N.eqb Pos.eqb].
  apply sh_word_single.
Qed.

End Quoting.

(** X12.  On a host other than Windows the command line ends with one
    quoted word, and a POSIX shell that reads this word gets the kept lines
    joined with ['; '], character for character: whatever the lines hold,
    quotes included, nothing of them is read by the shell of [os.system]
    itself. *)
Theorem full_command_quotes_one_word (h : host) (kept : list (list N)) :
  on_windows h = false ->
  exists word,
    full_command h kept
    = environ_get h (lit "SHELL") (lit "/bin/sh") ++ lit " -c " ++ word
    /\ sh_word Bare word = Some (Py.join (lit "; ") kept).
Proof.
  intros H. exists (Shlex.quote (Py.join (lit "; ") kept)).
  unfold full_command. rewrite H. split; [done|apply sh_word_quote].
Qed.

Lemma full_command_quotes_one_word_witness :
  exists word,
    full_command (demo_host None (lit "Linux")) [lit "echo 'a b'"; lit "ls $HOME"]
    = lit "/bin/sh -c " ++ word
    /\ sh_word Bare word = Some (lit "echo 'a b'; ls $HOME").
Proof.
  apply (full_command_quotes_one_word (demo_host None (lit "Linux"))
           [lit "echo 'a b'"; lit "ls $HOME"]).
  reflexivity.
Defined.

(** ** More on the installer, the version flag and the editor *)

(** X13.  Under a login shell it supports, a run of the installer with its
    flag set changes one file and no other: [~/.zshrc] when [$SHELL] holds
    [zsh], also when it holds [bash] as well, and [~/.bashrc] otherwise.  It
    prints one line before the write and one after, and makes no
    [os.system] call. *)
Theorem install_shell_integration_one_file
    (h : host) (cls value : value) (w : world) :
  truthy value = true ->
  let shell := environ_get h (lit "SHELL") [] in
  Py.contains (lit "zsh") shell || Py.contains (lit "bash") shell = true ->
  let zsh := Py.contains (lit "zsh") shell in
  let rc := expanduser h (if zsh then lit "~/.zshrc" else lit "~/.bashrc") in
  let blob := if zsh then zsh_integration h else bash_integration h in
  let w' := snd (install_shell_integration h cls value w) in
  (forall path, path <> rc -> files w' !! path = files w !! path)
  /\ files w' !! rc = Some (rc_text (files w) rc ++ blob)
  /\ trace w'
     = trace w
       ++ [Echo (if zsh then lit "Installing ZSH integration..."
                 else lit "Installing Bash integration...");
           Append rc blob;
           Echo (lit "Done! Restart your shell to apply changes.")].
Proof.
  intros Hv shell Hs zsh rc blob w'. subst w' rc blob zsh.
  unfold install_shell_integration, option_callback. rewrite Hv. cbn [negb].
  unfold install_shell_integration_body. fold shell.
  destruct (Py.contains (lit "zsh") shell) eqn:Ez.
  - unfold bind, typer_echo, append_file, log, raise, rc_text.
    cbn [fst snd files trace]. rewrite <- !app_assoc. cbn [app].
    split; [|by rewrite lookup_insert_eq].
    intros path Hp. by rewrite lookup_insert_ne.
  - cbn [orb] in Hs. rewrite Hs.
    unfold bind, typer_echo, append_file, log, raise, rc_text.
    cbn [fst snd files trace]. rewrite <- !app_assoc. cbn [app].
    split; [|by rewrite lookup_insert_eq].
    intros path Hp. by rewrite lookup_insert_ne.
Qed.

Lemma install_shell_integration_one_file_witness :
  files (snd (install_shell_integration
                (demo_host (Some (lit "/opt/bash-tools/bin/zsh")) (lit "Linux"))
                VNone (VBool true)
                {| files := {[ lit "/home/user/.bashrc" := lit "alias l=ls" ]};
                   trace := [] |}))
    !! lit "/home/user/.bashrc"
  = Some (lit "alias l=ls").
Proof.
  destruct (install_shell_integration_one_file
              (demo_host (Some (lit "/opt/bash-tools/bin/zsh")) (lit "Linux"))
              VNone (VBool true)
              {| files := {[ lit "/home/user/.bashrc" := lit "alias l=ls" ]};
                 trace := [] |} eq_refl eq_refl) as [H _].
  refine (eq_trans (H (lit "/home/user/.bashrc") _) _).
  - vm_compute. discriminate.
  - vm_compute. reflexivity.
Defined.

(** X14.  [get_sgpt_version] prints [ShellGPT] and the version, once, and
    raises [typer.Exit] when its flag is set; when the flag is not set it
    prints nothing and returns.  It touches no file in either case. *)
Theorem get_sgpt_version_outcomes (h : host) (cls value : value) (w : world) :
  get_sgpt_version h cls value w
  = if truthy value
    then (Raise Exit,
          {| files := files w;
             trace := trace w ++ [Echo (lit "ShellGPT " ++ version h)] |})
    else (Ok tt, w).
Proof.
  unfold get_sgpt_version, option_callback.
  destruct (truthy value); [|done]. by unfold bind, typer_echo, log, raise.
Qed.

(** X15.  [get_edited_prompt] cleans up after itself: when the name of the
    temporary file is a fresh one, the editor changes no other file, and
    the file it leaves, if any, can be read as UTF-8, the files are
    afterwards what they were before, whether a prompt is returned or
    [BadParameter] or [FileNotFoundError] raised. *)
Theorem get_edited_prompt_restores_files (h : host) (w : world) :
  let file_path := tempname h (files w) ++ lit ".txt" in
  let editor_cmd :=
    environ_get h (lit "EDITOR") (lit "vim") ++ lit " " ++ file_path in
  let edited := snd (spawn h editor_cmd (<[file_path := []]> (files w))) in
  files w !! file_path = None ->
  (forall path, path <> file_path -> edited !! path = files w !! path) ->
  (forall text, edited !! file_path = Some text -> existsb undecodable text = false) ->
  files (snd (get_edited_prompt h w)) = files w.
Proof.
  intros file_path editor_cmd edited Hfresh Hframe Hreads. subst edited.
  unfold get_edited_prompt, bind, named_temporary_file, os_system, read_file,
    os_remove, raise, ret. cbn [files trace].
  fold file_path. fold editor_cmd.
  destruct (spawn h editor_cmd (<[file_path:=[]]> (files w))) as [status fs].
  cbn [snd] in Hframe, Hreads. cbn [snd files trace].
  destruct (fs !! file_path) as [text|] eqn:E; cbn [fst snd files trace].
  - rewrite (Hreads text eq_refl). cbn [fst snd files trace].
    rewrite E. cbn [fst snd files trace].
    assert (Hfs : delete file_path fs = files w).
    { apply map_eq. intros path. destruct (decide (path = file_path)) as [->|Hne].
      - by rewrite lookup_delete_eq.
      - rewrite lookup_delete_ne by done. by apply Hframe. }
    by destruct (is_empty (universal_newlines text)).
  - apply map_eq. intros path. destruct (decide (path = file_path)) as [->|Hne].
    + by rewrite E.
    + by apply Hframe.
Qed.

Lemma demo_spawn_vim path fs q :
  q <> path ->
  snd (demo_spawn (lit "vim " ++ path) fs) !! q = fs !! q.
Proof.
  intros Hq. unfold demo_spawn.
  replace (Py.startswith (lit "which ls ") (lit "vim " ++ path)) with false
    by reflexivity.
  replace (Py.startswith (lit "which pwd ") (lit "vim " ++ path)) with false
    by reflexivity.
  replace (Py.startswith (lit "which ") (lit "vim " ++ path)) with false
    by reflexivity.
  replace (Py.startswith (lit "vim ") (lit "vim " ++ path)) with true
    by reflexivity.
  cbn [orb snd]. change (skipn 4 (lit "vim " ++ path)) with path.
  by rewrite lookup_insert_ne.
Qed.

Lemma get_edited_prompt_restores_files_witness :
  files (snd (get_edited_prompt (demo_host None (lit "Linux"))
                {| files := {[ lit "/home/user/notes" := lit "keep" ]};
                   trace := [] |}))
  = {[ lit "/home/user/notes" := lit "keep" ]}.
Proof.
  refine (get_edited_prompt_restores_files (demo_host None (lit "Linux"))
            {| files := {[ lit "/home/user/notes" := lit "keep" ]}; trace := [] |}
            _ _ _).
  - vm_compute. reflexivity.
  - intros path Hp. cbn [demo_host spawn].
    rewrite (demo_spawn_vim _ _ _ Hp). by rewrite lookup_insert_ne.
  - intros text. vm_compute. intros [= <-]. reflexivity.
Defined.

(** ** What the loop reports *)
Section LoopReports.
Variable h : host.
Implicit Types cmd : list N.
Implicit Types commands filtered kept : list (list N).
Implicit Types w : world.

Ltac loop_case :=
  cbn [filter_commands]; rewrite ?is_empty_strip;
  unfold bind, lift, os_system, typer_secho, log; cbn [fst snd files trace].

Lemma system_calls_app evs evs' :
  system_calls (evs ++ evs') = system_calls evs ++ system_calls evs'.
Proof.
  induction evs as [|[] evs IH]; cbn [app system_calls]; by rewrite ?IH.
Qed.

Lemma warnings_app evs evs' : warnings (evs ++ evs') = warnings evs ++ warnings evs'.
Proof.
  induction evs as [|[] evs IH]; cbn [app warnings]; by rewrite ?IH.
Qed.

Lemma filter_commands_lookups commands :
  on_windows h = false ->
  forall filtered w kept,
  fst (filter_commands h commands filtered w) = Ok kept ->
  system_calls (trace (snd (filter_commands h commands filtered w)))
  = system_calls (trace w) ++ map check_cmd (base_cmds commands).
Proof.
  intros Hposix. induction commands as [|cmd commands IH]; intros filtered w kept.
  - intros _. cbn [filter_commands ret snd base_cmds map]. by rewrite app_nil_r.
  - cbn [base_cmds]. loop_case. destruct (blank cmd); [apply IH|].
    destruct (base_cmd cmd) as [base|e]; [|done].
    rewrite Hposix. cbn [negb map].
    destruct (spawn h (check_cmd base) (files w)) as [status fs'].
    destruct (status =? 0)%Z; intros H; rewrite (IH _ _ _ H); cbn [trace];
      rewrite !system_calls_app; cbn [system_calls];
      by rewrite ?app_nil_r, <- app_assoc.
Qed.

Lemma filter_commands_accounts commands : forall filtered w kept,
  fst (filter_commands h commands filtered w) = Ok kept ->
  length kept + length (warnings (trace (snd (filter_commands h commands filtered w))))
  = length filtered + length (warnings (trace w)) + length (base_cmds commands).
Proof.
  induction commands as [|cmd commands IH]; intros filtered w kept.
  - intros [= <-]. cbn [filter_commands ret snd base_cmds length]. lia.
  - cbn [base_cmds]. loop_case. destruct (blank cmd); [apply IH|].
    destruct (base_cmd cmd) as [base|e]; [|done].
    destruct (negb (on_windows h)).
    + destruct (spawn h (check_cmd base) (files w)) as [status fs'].
      destruct (status =? 0)%Z; intros H; rewrite (IH _ _ _ H); cbn [trace];
        rewrite ?warnings_app, ?length_app; cbn [warnings length]; lia.
    + intros H. rewrite (IH _ _ _ H). rewrite length_app. cbn [length]. lia.
Qed.

End LoopReports.

(** X16.  On a host other than Windows, when the loop ends without raising,
    it has looked up the base command of every line that is not blank, once
    each and in the order of the lines, with [which] and its output thrown
    away: a lookup that fails stops none of the later ones. *)
Theorem filter_commands_looks_up_each_line
    (h : host) (commands kept : list (list N)) (w : world) :
  on_windows h = false ->
  fst (filter_commands h commands [] w) = Ok kept ->
  system_calls (trace (snd (filter_commands h commands [] w)))
  = system_calls (trace w) ++ map check_cmd (base_cmds commands).
Proof. intros Hposix H. by apply (filter_commands_lookups h _ Hposix [] w kept). Qed.

Lemma filter_commands_looks_up_each_line_witness :
  system_calls
    (trace (snd (filter_commands (demo_host None (lit "Linux"))
                   [lit "nosuchtool x"; lit ""; lit "ls -la | wc"] [] empty_world)))
  = [lit "which nosuchtool >/dev/null 2>&1"; lit "which ls >/dev/null 2>&1"].
Proof.
  refine (eq_trans
            (filter_commands_looks_up_each_line (demo_host None (lit "Linux"))
               [lit "nosuchtool x"; lit ""; lit "ls -la | wc"] [lit "ls -la | wc"]
               empty_world _ _) _);
    vm_compute; reflexivity.
Defined.

(** X17.  No line is lost without a word: when the loop ends without
    raising, every line that is not blank was either kept or reported on
    standard error, so the kept lines and the warnings add up to the lines
    that are not blank. *)
Theorem filter_commands_keeps_or_warns
    (h : host) (commands kept : list (list N)) (w : world) :
  fst (filter_commands h commands [] w) = Ok kept ->
  length kept
  + length (warnings (trace (snd (filter_commands h commands [] w))))
  = length (warnings (trace w)) + length (base_cmds commands).
Proof. intros H. by rewrite (filter_commands_accounts h _ [] w kept H). Qed.

Lemma filter_commands_keeps_or_warns_witness :
  length [lit "ls -la | wc"]
  + length (warnings
              (trace (snd (filter_commands (demo_host None (lit "Linux"))
                             [lit "nosuchtool x"; lit ""; lit "ls -la | wc"] []
                             empty_world))))
  = length (warnings (trace empty_world))
    + length (base_cmds [lit "nosuchtool x"; lit ""; lit "ls -la | wc"]).
Proof.
  apply (filter_commands_keeps_or_warns (demo_host None (lit "Linux"))
           [lit "nosuchtool x"; lit ""; lit "ls -la | wc"] [lit "ls -la | wc"]
           empty_world).
  vm_compute. reflexivity.
Defined.

(** ** The choice of the Windows shell and the case of no failure *)
Section ShellChoice.
Implicit Types s : list N.

(** [split] cuts at every separator: one piece more than separators. *)
Lemma split_length sep s :
  length (Py.split sep s) = S (length (List.filter (N.eqb sep) s)).
Proof.
  induction s as [|c s IH]; [done|]. cbn [Py.split List.filter].
  rewrite (N.eqb_sym sep c). destruct (c =? sep)%N.
  - cbn [length]. by rewrite IH.
  - destruct (Py.split sep s) as [|w ws]; [done|]. exact IH.
Qed.


End ShellChoice.

(** X18.  On Windows the shell is chosen by counting: the command line is
    for [powershell.exe] when [PSModulePath] holds two semicolons or more,
    and for [cmd.exe] otherwise, as when the variable is not set. *)
Theorem full_command_windows_shell (h : host) (kept : list (list N)) :
  on_windows h = true ->
  full_command h kept
  = if (2 <=? length (List.filter (N.eqb 59)
                        (environ_get h (lit "PSModulePath") [])))%nat
    then lit "powershell.exe -Command " ++ [dquote]
         ++ Py.join (lit "; ") kept ++ [dquote]
    else lit "cmd.exe /c " ++ [dquote]
         ++ Py.join (lit " && ") kept ++ [dquote].
Proof.
  intros H. unfold full_command, os_pathsep. rewrite H, split_length. reflexivity.
Qed.

Lemma full_command_windows_shell_witness :
  full_command
    {| environ := {[ lit "PSModulePath" := lit "C:\a;C:\b;C:\c" ]};
       platform_system := lit "Windows";
       spawn := demo_spawn;
       tempname := fun _ => lit "tmp";
       expanduser := fun p => p;
       zsh_integration := [];
       bash_integration := [];
       version := [] |}
    [lit "dir"; lit "ver"]
  = lit "powershell.exe -Command " ++ [dquote] ++ lit "dir; ver" ++ [dquote].
Proof.
  rewrite full_command_windows_shell; reflexivity.
Defined.




(** ** Where nothing resolves *)

(** On a POSIX host whose PATH lookups leave the files alone and never
    succeed, and for a text no line of which raises, [run_command] returns
    with the files as they were; its [os.system] calls are the lookups of
    the base commands of the lines, and its last word is the message. *)
Lemma run_command_none_resolve (h : host) (command : list N) (w : world) :
  on_windows h = false ->
  (forall base fs, snd (spawn h (check_cmd base) fs) = fs) ->
  (forall base fs, fst (spawn h (check_cmd base) fs) <> 0%Z) ->
  existsb blank_before_pipe (Py.split nl (command_text command)) = false ->
  fst (run_command h command w) = Ok tt
  /\ files (snd (run_command h command w)) = files w
  /\ system_calls (trace (snd (run_command h command w)))
     = system_calls (trace w)
       ++ map check_cmd (base_cmds (Py.split nl (command_text command)))
  /\ last (trace (snd (run_command h command w)))
     = Some (Secho (lit "No valid commands to execute") (lit "red") true).
Proof.
  intros Hposix Hpure Hnone Hok.
  assert (E := filter_commands_none_resolve h _ Hposix Hnone [] w Hok).
  destruct (filter_commands_posix h _ Hposix Hpure [] w Hok) as [_ Ef].
  assert (Es := filter_commands_lookups h _ Hposix [] w [] E).
  rewrite run_command_unfold.
  destruct (filter_commands h _ [] w) as [r w1]. cbn [fst snd] in *. subst r.
  cbn [is_empty fst snd files trace].
  rewrite system_calls_app, Es, last_snoc. cbn [system_calls].
  by rewrite app_nil_r.
Qed.
